(** * Help-desk tickets: identity generation, store and lifecycle

    A shallow embedding of [src/models.py] (the Django models of the
    [tickets] application) together with the parts of Django and of the
    Python runtime that the models rely on: string formatting and parsing,
    the [startswith] lookup of the configured SQLite backend, [order_by],
    [save], and the [on_delete] rules of the deletion collector.

    The status transitions are not part of the models; they follow the
    table of section 4.3 of the specification.

    Python [str] values are modelled by [string]: sequences of code points
    below 256.  Python [int] values are modelled by [Z]. *)

From Stdlib Require Import ZArith NArith Nnat List String Ascii Bool Lia.
From Stdlib Require Import Permutation Sorted.
Import ListNotations.

Open Scope string_scope.
Open Scope Z_scope.

(** ** Exceptions *)

Inductive exn : Type :=
| ValueError       (* raised by [int] on a malformed literal *)
| IntegrityError.  (* raised by [save] on a violated UNIQUE or FOREIGN KEY *)

Inductive result (A : Type) : Type :=
| Ok (a : A)
| Raise (e : exn).
Arguments Ok {A} a.
Arguments Raise {A} e.

Definition bind {A B : Type} (m : result A) (k : A -> result B) : result B :=
  match m with
  | Ok a => k a
  | Raise e => Raise e
  end.

Notation "x <- m ;; k" := (bind m (fun x => k))
  (at level 61, m at next level, right associativity).

(** ** Python strings and integers *)

Definition is_digit (c : ascii) : bool :=
  let n := N_of_ascii c in ((48 <=? n) && (n <=? 57))%N.

Definition digit_val (c : ascii) : Z := Z.of_N (N_of_ascii c) - 48.

Definition digit_char (d : Z) : ascii := ascii_of_N (Z.to_N (48 + d)).

(** Decimal digits of a non-negative integer, most significant first.
    The fuel is the number of binary digits of [n], which bounds the
    number of decimal ones. *)
Fixpoint digits_go (fuel : nat) (n : Z) (acc : string) : string :=
  match fuel with
  | O => acc
  | S f =>
      let acc' := String (digit_char (n mod 10)) acc in
      if n / 10 =? 0 then acc' else digits_go f (n / 10) acc'
  end.

Definition str_nonneg (n : Z) : string :=
  digits_go (S (Z.to_nat (Z.log2 n))) n "".

(** [str(n)], which is also what [f'{n}'] prints. *)
Definition py_str_int (n : Z) : string :=
  if n <? 0 then String "-" (str_nonneg (- n)) else str_nonneg n.

Fixpoint zeros (k : nat) : string :=
  match k with
  | O => ""
  | S k' => String "0" (zeros k')
  end.

(** [f'{n:04d}']: sign-aware zero padding to a minimum width of 4. *)
Definition format_04d (n : Z) : string :=
  let d := str_nonneg (Z.abs n) in
  if n <? 0
  then String "-" (zeros (3 - String.length d) ++ d)
  else zeros (4 - String.length d) ++ d.

(** The blanks that [int] skips around a literal: the ASCII ones of C's
    [isspace], and the two other spaces below 256 (NEL and the no-break
    space). *)
Definition is_space (c : ascii) : bool :=
  let n := N_of_ascii c in
  (((9 <=? n) && (n <=? 13)) || (n =? 32) || (n =? 133) || (n =? 160))%N.

Fixpoint lstrip (s : string) : string :=
  match s with
  | "" => ""
  | String c r => if is_space c then lstrip r else s
  end.

Fixpoint rstrip (s : string) : string :=
  match s with
  | "" => ""
  | String c r =>
      match rstrip r with
      | "" => if is_space c then "" else String c ""
      | r' => String c r'
      end
  end.

Definition strip (s : string) : string := rstrip (lstrip s).

(** The digit part of an integer literal: decimal digits, with single
    underscores allowed between two digits.  [prev] tells whether the
    previous character was a digit. *)
Fixpoint int_digits (s : string) (acc : Z) (prev : bool) : option Z :=
  match s with
  | "" => if prev then Some acc else None
  | String c r =>
      if is_digit c then int_digits r (10 * acc + digit_val c) true
      else if Ascii.eqb c "_" && prev then int_digits r acc false
      else None
  end.

(** [int(s)] in base 10.  (CPython's configurable cap on the number of
    digits of a literal is not modelled.) *)
Definition py_int (s : string) : result Z :=
  let body := strip s in
  let '(sign, ds) :=
    match body with
    | String c r =>
        if Ascii.eqb c "-" then (-1, r)
        else if Ascii.eqb c "+" then (1, r)
        else (1, body)
    | "" => (1, body)
    end in
  match int_digits ds 0 false with
  | Some v => Ok (sign * v)
  | None => Raise ValueError
  end.

(** [s.split(sep)] for a one-character separator. *)
Fixpoint py_split (sep : ascii) (s : string) : list string :=
  match s with
  | "" => [""]
  | String c r =>
      if Ascii.eqb c sep then "" :: py_split sep r
      else match py_split sep r with
           | h :: t => String c h :: t
           | [] => [String c ""]
           end
  end.

(** [l[-1]] on the result of a split, which is never empty. *)
Definition last_item (l : list string) : string := last l "".

(** [s[:k]] for [k >= 0]. *)
Fixpoint slice_to (k : nat) (s : string) : string :=
  match k, s with
  | S k', String c r => String c (slice_to k' r)
  | _, _ => ""
  end.

(** The [startswith] lookup.  [settings.DATABASES] selects SQLite, where
    Django compiles it to [LIKE 'prefix%'], and SQLite's [LIKE] ignores
    the case of ASCII letters. *)
Definition ascii_upper (c : ascii) : ascii :=
  let n := N_of_ascii c in
  if ((97 <=? n) && (n <=? 122))%N then ascii_of_N (n - 32) else c.

Fixpoint startswith (p s : string) : bool :=
  match p, s with
  | "", _ => true
  | String a p', String b s' =>
      Ascii.eqb (ascii_upper a) (ascii_upper b) && startswith p' s'
  | String _ _, "" => false
  end.

(** ** Date and time *)

(** An aware [datetime] in UTC ([USE_TZ = True]). *)
Record datetime : Type := mkDatetime {
  dt_year : Z;
  dt_month : Z;
  dt_day : Z;
  dt_hour : Z;
  dt_minute : Z;
  dt_second : Z;
  dt_microsecond : Z
}.

Definition is_leap (y : Z) : bool :=
  (y mod 4 =? 0) && (negb (y mod 100 =? 0) || (y mod 400 =? 0)).

Definition days_before_year (y : Z) : Z :=
  let p := y - 1 in p * 365 + p / 4 - p / 100 + p / 400.

Definition days_in_month (y m : Z) : Z :=
  if m =? 2 then (if is_leap y then 29 else 28)
  else if (m =? 4) || (m =? 6) || (m =? 9) || (m =? 11) then 30
  else 31.

Definition days_before_month (y m : Z) : Z :=
  fold_right (fun i acc => days_in_month y (Z.of_nat i) + acc) 0
             (seq 1 (Z.to_nat (m - 1))).

Definition toordinal (d : datetime) : Z :=
  days_before_year (dt_year d) + days_before_month (dt_year d) (dt_month d)
  + dt_day d.

(** Microseconds since the start of day 0: the instant, by which the
    database compares and orders timestamps. *)
Definition dt_micros (d : datetime) : Z :=
  (((toordinal d * 24 + dt_hour d) * 60 + dt_minute d) * 60 + dt_second d)
  * 1000000 + dt_microsecond d.

(** [(b - a).days] *)
Definition elapsed_days (a b : datetime) : Z :=
  (dt_micros b - dt_micros a) / 86400000000.

(** ** The system's random source *)

(** [secrets.SystemRandom]: the operating system's entropy, as the
    sequence of values it will deliver and a cursor into it. *)
Record SystemRandom : Type := mkRandom {
  entropy : nat -> N;
  cursor : nat
}.

(** [_randbelow(n)]: some [k] with [0 <= k < n]. *)
Definition randbelow (n : N) (g : SystemRandom) : N * SystemRandom :=
  ((entropy g (cursor g) mod n)%N, mkRandom (entropy g) (S (cursor g))).

(** [secrets.choice(seq)] is [seq[_randbelow(len(seq))]]. *)
Definition secrets_choice (seq : string) (g : SystemRandom)
  : ascii * SystemRandom :=
  let '(k, g') := randbelow (N.of_nat (String.length seq)) g in
  (match String.get (N.to_nat k) seq with
   | Some c => c
   | None => "000"%char   (* IndexError on an empty [seq] *)
   end, g').

Definition ascii_uppercase : string := "ABCDEFGHIJKLMNOPQRSTUVWXYZ".
Definition digits : string := "0123456789".

(** [''.join(secrets.choice(alphabet) for _ in range(k))] *)
Fixpoint join_choices (k : nat) (alphabet : string) (g : SystemRandom)
  : string * SystemRandom :=
  match k with
  | O => ("", g)
  | S k' =>
      let '(c, g1) := secrets_choice alphabet g in
      let '(r, g2) := join_choices k' alphabet g1 in
      (String c r, g2)
  end.

Definition generate_access_code (g : SystemRandom) : string * SystemRandom :=
  join_choices 12 (ascii_uppercase ++ digits) g.

(** ** The models *)

Inductive Role : Type := TECNICO | USUARIO.

Inductive Status : Type :=
  ABIERTO | EN_PROGRESO | RECHAZADO | CERRADO | ARCHIVADO.

Inductive Priority : Type := ALTA | MEDIA | BAJA.

Inductive Category : Type :=
  COMPUTADORA | IMPRESORA | SOFTWARE | RED | ACCESO | OTRO.

Inductive Action : Type :=
  CREATED | STATUS_CHANGED | VISIT_SCHEDULED | REJECTED | CLOSED
| NOTE_ADDED | ARCHIVED.

(** [CustomUser].  Of the columns inherited from [AbstractUser] only
    [username] is kept: it is the one that carries a constraint.
    [user_pk] is [None] on an instance that was never saved. *)
Record CustomUser : Type := mkUser {
  user_pk : option Z;
  username : string;
  role : Role;
  institutional_email : string;
  access_code : string;
  code_sent_count : Z;
  is_code_active : bool
}.

(** [Ticket].  [ticket_user] is the foreign key [user], CASCADE;
    [ticket_number] is UNIQUE. *)
Record Ticket : Type := mkTicket {
  ticket_id : Z;
  ticket_number : string;
  ticket_user : Z;
  description : string;
  category : Category;
  priority : Priority;
  status : Status;
  affected_equipment : string;
  serial_number : option string;
  visit_date : option (Z * Z * Z);
  visit_time : option (Z * Z * Z);
  rejection_reason : option string;
  closure_note : option string;
  created_at : datetime;
  updated_at : datetime;
  closed_at : option datetime
}.

(** [TicketAttachment].  [att_ticket] is the foreign key [ticket],
    CASCADE. *)
Record TicketAttachment : Type := mkAttachment {
  att_id : Z;
  att_ticket : Z;
  image : string;
  uploaded_at : datetime
}.

(** [TicketHistory].  [th_ticket] is the foreign key [ticket], CASCADE;
    [th_user] is the nullable foreign key [user], SET_NULL. *)
Record TicketHistory : Type := mkHistory {
  th_id : Z;
  th_ticket : Z;
  th_user : option Z;
  action : Action;
  comment : option string;
  timestamp : datetime
}.

(** [Notification].  [nt_user] is the foreign key [user], CASCADE;
    [nt_ticket] the nullable foreign key [ticket], CASCADE. *)
Record Notification : Type := mkNotification {
  nt_id : Z;
  nt_user : Z;
  nt_ticket : option Z;
  title : string;
  message : string;
  is_read : bool;
  nt_created_at : datetime
}.

(** The database: one list of rows per table, in insertion order, and the
    AUTOINCREMENT counters of the two tables this development inserts
    into. *)
Record Store : Type := mkStore {
  users : list CustomUser;
  tickets : list Ticket;
  attachments : list TicketAttachment;
  history : list TicketHistory;
  notifications : list Notification;
  user_seq : Z;
  ticket_seq : Z
}.

Definition empty_store : Store := mkStore [] [] [] [] [] 0 0.

(** ** Querysets *)

Section OrderBy.
Context {A : Type} (key : A -> Z).

(** Insert [x], which precedes every element of [l] in the table,
    keeping keys in descending order; rows with equal keys stay in
    table order (SQL leaves their order open). *)
Fixpoint insert_desc (x : A) (l : list A) : list A :=
  match l with
  | [] => [x]
  | y :: r => if key y <=? key x then x :: l else y :: insert_desc x r
  end.

(** [order_by('-key')] *)
Definition order_by_desc (l : list A) : list A :=
  fold_right insert_desc [] l.
End OrderBy.

(** [first()] *)
Definition first {A : Type} (l : list A) : option A := hd_error l.

Definition created_key (t : Ticket) : Z := dt_micros (created_at t).
Definition timestamp_key (h : TicketHistory) : Z := dt_micros (timestamp h).
Definition notification_key (n : Notification) : Z :=
  dt_micros (nt_created_at n).

(** [Model.objects.all()] under each model's [Meta.ordering]. *)
Definition Ticket_objects_all (db : Store) : list Ticket :=
  order_by_desc created_key (tickets db).

Definition TicketHistory_objects_all (db : Store) : list TicketHistory :=
  order_by_desc timestamp_key (history db).

Definition Notification_objects_all (db : Store) : list Notification :=
  order_by_desc notification_key (notifications db).

(** ** Identity generation *)

Definition year_prefix (year : Z) : string := "TCK-" ++ py_str_int year.

Definition ticket_number_format (year new_num : Z) : string :=
  year_prefix year ++ "-" ++ format_04d new_num.

Definition generate_ticket_number (db : Store) (now : datetime)
  : result string :=
  let year := dt_year now in
  let last_ticket :=
    first (order_by_desc created_key
             (filter (fun t => startswith (year_prefix year) (ticket_number t))
                     (tickets db))) in
  new_num <-
    match last_ticket with
    | Some t =>
        last_num <- py_int (last_item (py_split "-" (ticket_number t))) ;;
        Ok (last_num + 1)
    | None => Ok 1
    end ;;
  Ok (ticket_number_format year new_num).

(** The reading of the specification: the successor of the highest
    sequence number among the tickets of the year. *)
Definition max_sequence (year : Z) (l : list Ticket) : option Z :=
  fold_right
    (fun t acc =>
       if startswith (year_prefix year) (ticket_number t) then
         match py_int (last_item (py_split "-" (ticket_number t))), acc with
         | Ok n, Some m => Some (Z.max n m)
         | Ok n, None => Some n
         | Raise _, _ => acc
         end
       else acc)
    None l.

Definition generate_ticket_number_by_highest (db : Store) (now : datetime)
  : string :=
  match max_sequence (dt_year now) (tickets db) with
  | Some m => ticket_number_format (dt_year now) (m + 1)
  | None => ticket_number_format (dt_year now) 1
  end.

(** ** Saving and deleting *)

Definition has_pk (k : Z) (u : CustomUser) : bool :=
  match user_pk u with
  | Some j => j =? k
  | None => false
  end.

(** The keyword arguments of [Ticket.objects.create]; every other column
    takes its default. *)
Record NewTicket : Type := mkNewTicket {
  new_user : Z;
  new_description : string;
  new_category : Category;
  new_priority : option Priority;
  new_affected_equipment : string;
  new_serial_number : option string
}.

(** [Ticket.objects.create] with keyword arguments [kw].  The instance is
    built at [now_init], when the default of [ticket_number] is
    evaluated.  On insert each timestamp column reads the clock for
    itself, in the order of declaration: [created_at] ([auto_now_add]) at
    [now_save], then [updated_at] ([auto_now]) at [now_touch].  The insert
    checks the UNIQUE constraint of [ticket_number] and the foreign key
    to the user. *)
Definition create_ticket (db : Store) (now_init now_save now_touch : datetime)
  (kw : NewTicket) : result (Ticket * Store) :=
  number <- generate_ticket_number db now_init ;;
  if existsb (fun t => String.eqb (ticket_number t) number) (tickets db)
  then Raise IntegrityError
  else if negb (existsb (has_pk (new_user kw)) (users db))
  then Raise IntegrityError
  else
    let pk := ticket_seq db + 1 in
    let t :=
      mkTicket pk number (new_user kw) (new_description kw) (new_category kw)
        (match new_priority kw with Some p => p | None => MEDIA end)
        ABIERTO (new_affected_equipment kw) (new_serial_number kw)
        None None None None now_save now_touch None in
    Ok (t, mkStore (users db) (tickets db ++ [t]) (attachments db)
             (history db) (notifications db) (user_seq db) pk).

(** One creation attempt: the three clock readings and the arguments. *)
Definition Creation : Type :=
  (datetime * datetime * datetime * NewTicket)%type.

(** Creation attempts one after the other; an attempt that raises leaves
    the database as it was. *)
Fixpoint create_tickets (db : Store) (reqs : list Creation) : Store :=
  match reqs with
  | [] => db
  | (now_init, now_save, now_touch, kw) :: rest =>
      match create_ticket db now_init now_save now_touch kw with
      | Ok (_, db') => create_tickets db' rest
      | Raise _ => create_tickets db rest
      end
  end.

Definition clashes (u r : CustomUser) : bool :=
  String.eqb (username r) (username u)
  || String.eqb (institutional_email r) (institutional_email u)
  || String.eqb (access_code r) (access_code u).

Definition with_pk (k : Z) (u : CustomUser) : CustomUser :=
  mkUser (Some k) (username u) (role u) (institutional_email u)
    (access_code u) (code_sent_count u) (is_code_active u).

Definition set_users (db : Store) (us : list CustomUser) (useq : Z) : Store :=
  mkStore us (tickets db) (attachments db) (history db) (notifications db)
    useq (ticket_seq db).

(** What a write of [u] is checked against: every row but its own. *)
Definition other_rows (db : Store) (u : CustomUser) : list CustomUser :=
  match user_pk u with
  | Some k => filter (fun r => negb (has_pk k r)) (users db)
  | None => users db
  end.

(** [CustomUser.save()]: an UPDATE of the row with the instance's primary
    key, or an INSERT when there is none; both check the three UNIQUE
    columns against the other rows. *)
Definition save_user (db : Store) (u : CustomUser)
  : result (CustomUser * Store) :=
  if existsb (clashes u) (other_rows db u) then Raise IntegrityError
  else
    match user_pk u with
    | Some k =>
        if existsb (has_pk k) (users db)
        then Ok (u, set_users db
                      (map (fun r => if has_pk k r then u else r) (users db))
                      (user_seq db))
        else Ok (u, set_users db (users db ++ [u]) (Z.max (user_seq db) k))
    | None =>
        let k := user_seq db + 1 in
        Ok (with_pk k u, set_users db (users db ++ [with_pk k u]) k)
    end.

(** What a call of [regenerate_code] leaves behind: the instance (mutated
    in place whether or not [save] raises), the database, the random
    source, and the value returned or the exception raised. *)
Record Regenerated : Type := mkRegenerated {
  rg_self : CustomUser;
  rg_db : Store;
  rg_random : SystemRandom;
  rg_result : result string
}.

Definition regenerate_code (self : CustomUser) (db : Store)
  (g : SystemRandom) : Regenerated :=
  let '(code, g') := generate_access_code g in
  let self1 :=
    mkUser (user_pk self) (username self) (role self)
      (institutional_email self) code 0 true in
  match save_user db self1 with
  | Ok (self2, db') => mkRegenerated self2 db' g' (Ok (access_code self2))
  | Raise e => mkRegenerated self1 db g' (Raise e)
  end.

Definition owned_by (uid : Z) (t : Ticket) : bool := ticket_user t =? uid.

(** Primary keys of the tickets that go with user [uid]. *)
Definition cascaded_tickets (db : Store) (uid : Z) : list Z :=
  map ticket_id (filter (owned_by uid) (tickets db)).

Definition mem (k : Z) (l : list Z) : bool := existsb (Z.eqb k) l.

(** [on_delete=SET_NULL] on [TicketHistory.user] *)
Definition null_actor (uid : Z) (h : TicketHistory) : TicketHistory :=
  match th_user h with
  | Some k =>
      if k =? uid
      then mkHistory (th_id h) (th_ticket h) None (action h) (comment h)
             (timestamp h)
      else h
  | None => h
  end.

(** [user.delete()] for the user with primary key [uid]: the deletion
    collector follows every [CASCADE] foreign key (tickets and
    notifications of the user, then attachments, history and
    notifications of those tickets) and nulls the [SET_NULL] one on the
    rows that remain. *)
Definition delete_user (db : Store) (uid : Z) : Store :=
  let gone := cascaded_tickets db uid in
  mkStore
    (filter (fun u => negb (has_pk uid u)) (users db))
    (filter (fun t => negb (owned_by uid t)) (tickets db))
    (filter (fun a => negb (mem (att_ticket a) gone)) (attachments db))
    (map (null_actor uid)
       (filter (fun h => negb (mem (th_ticket h) gone)) (history db)))
    (filter (fun n =>
               negb ((nt_user n =? uid)
                     || match nt_ticket n with
                        | Some k => mem k gone
                        | None => false
                        end))
       (notifications db))
    (user_seq db) (ticket_seq db).

(** [ticket.delete()] for the ticket with primary key [tid]: the
    attachments, history rows and notifications that point to it go with
    it ([CASCADE] on each of the three foreign keys); no table has a
    foreign key that a ticket would take a user with. *)
Definition delete_ticket (db : Store) (tid : Z) : Store :=
  mkStore
    (users db)
    (filter (fun t => negb (ticket_id t =? tid)) (tickets db))
    (filter (fun a => negb (att_ticket a =? tid)) (attachments db))
    (filter (fun h => negb (th_ticket h =? tid)) (history db))
    (filter (fun n =>
               negb (match nt_ticket n with
                     | Some k => k =? tid
                     | None => false
                     end))
       (notifications db))
    (user_seq db) (ticket_seq db).

(** ** Presentation *)

Definition get_short_description (self : Ticket) : string :=
  if (50 <? String.length (description self))%nat
  then slice_to 50 (description self) ++ "..."
  else description self.

(** ** Lifecycle *)

(** [settings.DAYS_UNTIL_ARCHIVE] *)
Definition DAYS_UNTIL_ARCHIVE : Z := 30.

Inductive Event : Type :=
| StartWork
| ScheduleVisit (date time : option (Z * Z * Z))
| Reject (reason : string)
| CloseTicket (note : option string)
| AddNote (text : string)
| Archive.

Inductive LifecycleError : Type :=
  InvalidTransition | PreconditionFailed | PermissionDenied.

(** A successful transition: the ticket as persisted, the action of the
    history row written with it, and whether the owner is notified. *)
Record Outcome : Type := mkOutcome {
  out_ticket : Ticket;
  out_action : Action;
  out_notify_owner : bool
}.

Definition set_lifecycle (t : Ticket) (st : Status)
  (vd vt : option (Z * Z * Z)) (reason note : option string)
  (now : datetime) (closed : option datetime) : Ticket :=
  mkTicket (ticket_id t) (ticket_number t) (ticket_user t) (description t)
    (category t) (priority t) st (affected_equipment t) (serial_number t)
    vd vt reason note (created_at t) now closed.

(** Modelled from the spec: the transition function of the
    LifecycleEngine, which is not among the source files.  It follows the
    table of section 4.3 row by row: the legal source states of each
    event, its precondition, and its effects on the ticket ([closed_at]
    is set by reject and by close; [updated_at] is bumped by every
    mutation).  A request from a state that is not listed for the event
    is an [InvalidTransition]. *)
Definition transition (t : Ticket) (actor : CustomUser) (ev : Event)
  (now : datetime) : LifecycleError + Outcome :=
  match ev, status t with
  | StartWork, ABIERTO =>
      match role actor with
      | TECNICO =>
          inr (mkOutcome
                 (set_lifecycle t EN_PROGRESO (visit_date t) (visit_time t)
                    (rejection_reason t) (closure_note t) now (closed_at t))
                 STATUS_CHANGED true)
      | USUARIO => inl PermissionDenied
      end
  | ScheduleVisit d tm, ABIERTO =>
      match d, tm with
      | Some _, Some _ =>
          inr (mkOutcome
                 (set_lifecycle t ABIERTO d tm
                    (rejection_reason t) (closure_note t) now (closed_at t))
                 VISIT_SCHEDULED true)
      | _, _ => inl PreconditionFailed
      end
  | Reject reason, ABIERTO | Reject reason, EN_PROGRESO =>
      if String.eqb reason "" then inl PreconditionFailed
      else
        inr (mkOutcome
               (set_lifecycle t RECHAZADO (visit_date t) (visit_time t)
                  (Some reason) (closure_note t) now (Some now))
               REJECTED true)
  | CloseTicket note, EN_PROGRESO =>
      match note with
      | Some _ =>
          inr (mkOutcome
                 (set_lifecycle t CERRADO (visit_date t) (visit_time t)
                    (rejection_reason t) note now (Some now))
                 CLOSED true)
      | None => inl PreconditionFailed
      end
  | AddNote _, CERRADO =>
      inr (mkOutcome t NOTE_ADDED false)
  | Archive, CERRADO =>
      match closed_at t with
      | Some c =>
          if DAYS_UNTIL_ARCHIVE <=? elapsed_days c now
          then
            inr (mkOutcome
                   (set_lifecycle t ARCHIVADO (visit_date t) (visit_time t)
                      (rejection_reason t) (closure_note t) now (closed_at t))
                   ARCHIVED false)
          else inl PreconditionFailed
      | None => inl PreconditionFailed
      end
  | _, _ => inl InvalidTransition
  end.

(** The states a ticket can be in: as inserted by [create_ticket], then
    after any number of successful transitions. *)
Inductive reachable : Ticket -> Prop :=
| reach_created db now_init now_save now_touch kw t db' :
    create_ticket db now_init now_save now_touch kw = Ok (t, db') ->
    reachable t
| reach_step t actor ev now o :
    reachable t ->
    transition t actor ev now = inr o ->
    reachable (out_ticket o).

Definition closed_or_archived (s : Status) : bool :=
  match s with
  | CERRADO | ARCHIVADO => true
  | _ => false
  end.

Definition closed_at_is_set (t : Ticket) : bool :=
  match closed_at t with
  | Some _ => true
  | None => false
  end.

(** ** Vocabulary of the statements *)

(** The value of a run of decimal digits read after [acc]. *)
Fixpoint digits_val (s : string) (acc : Z) : Z :=
  match s with
  | "" => acc
  | String c r => digits_val r (10 * acc + digit_val c)
  end.

Fixpoint all_digits (s : string) : bool :=
  match s with
  | "" => true
  | String c r => is_digit c && all_digits r
  end.

(** Every character is an upper-case ASCII letter or a decimal digit. *)
Definition is_upper_or_digit (c : ascii) : bool :=
  let n := N_of_ascii c in
  (((65 <=? n) && (n <=? 90)) || ((48 <=? n) && (n <=? 57)))%N.

Fixpoint all_chars (p : ascii -> bool) (s : string) : bool :=
  match s with
  | "" => true
  | String c r => p c && all_chars p r
  end.

(** The tickets of a year, as the generator sees them. *)
Definition of_year (year : Z) (t : Ticket) : bool :=
  startswith (year_prefix year) (ticket_number t).

(** [k] consecutive integers from [a]. *)
Fixpoint Zseq (a : Z) (k : nat) : list Z :=
  match k with
  | O => []
  | S k' => a :: Zseq (a + 1) k'
  end.

(** The numbers of the tickets of a year, in table order. *)
Definition year_numbers (year : Z) (db : Store) : list string :=
  map ticket_number (filter (of_year year) (tickets db)).

(** The tickets of a year, with [created_at] strictly increasing along
    the table. *)
Definition in_creation_order (l : list Ticket) : Prop :=
  StronglySorted (fun a b => created_key a < created_key b) l.


(** The year read at the start of a creation attempt. *)
Definition creation_year (r : Creation) : Z :=
  dt_year (fst (fst (fst r))).

(** A number printed for year [y]. *)
Definition numbered_in (y : Z) (number : string) : Prop :=
  exists n, number = ticket_number_format y n.

(** The instance as [regenerate_code] hands it to [save]. *)
Definition with_fresh_code (self : CustomUser) (code : string) : CustomUser :=
  mkUser (user_pk self) (username self) (role self)
    (institutional_email self) code 0 true.

(** The history row hangs on a ticket that user [uid] owns. *)
Definition on_ticket_of (db : Store) (uid : Z) (h : TicketHistory) : Prop :=
  exists t, In t (tickets db) /\ ticket_user t = uid
            /\ ticket_id t = th_ticket h.

Definition rejected_closed_or_archived (s : Status) : bool :=
  match s with
  | RECHAZADO | CERRADO | ARCHIVADO => true
  | _ => false
  end.

(** What follows the last dash of a ticket number. *)
Definition tail_of (t : Ticket) : string :=
  last_item (py_split "-" (ticket_number t)).

Definition user_exists (db : Store) (k : Z) : Prop :=
  existsb (has_pk k) (users db) = true.

Definition ticket_exists (db : Store) (k : Z) : Prop :=
  existsb (fun t => ticket_id t =? k) (tickets db) = true.

(** Every foreign key of every row points to a row of its table. *)
Definition referentially_intact (db : Store) : Prop :=
  Forall (fun t => user_exists db (ticket_user t)) (tickets db)
  /\ Forall (fun a => ticket_exists db (att_ticket a)) (attachments db)
  /\ Forall (fun h => ticket_exists db (th_ticket h)
                      /\ match th_user h with
                         | Some k => user_exists db k
                         | None => True
                         end)
            (history db)
  /\ Forall (fun n => user_exists db (nt_user n)
                      /\ match nt_ticket n with
                         | Some k => ticket_exists db k
                         | None => True
                         end)
            (notifications db).

(** The users table as the database keeps it: every row has a primary
    key, none above the AUTOINCREMENT counter, and primary keys, user
    names, institutional addresses and access codes are each pairwise
    distinct. *)
Definition users_distinct (db : Store) : Prop :=
  Forall (fun u => exists k, user_pk u = Some k /\ k <= user_seq db)
         (users db)
  /\ NoDup (map user_pk (users db))
  /\ NoDup (map username (users db))
  /\ NoDup (map institutional_email (users db))
  /\ NoDup (map access_code (users db)).

(** The position of the first [c] in [s]. *)
Fixpoint index_in (c : ascii) (s : string) : nat :=
  match s with
  | "" => O
  | String a r => if Ascii.eqb a c then O else S (index_in c r)
  end.

(** A random source that delivers, draw after draw, the positions of the
    characters of [code] in [alphabet]. *)
Definition source_of (alphabet code : string) : SystemRandom :=
  mkRandom
    (fun i => match String.get i code with
              | Some c => N.of_nat (index_in c alphabet)
              | None => 0%N
              end)
    0.

(** A listing is newest first when no row is followed, at any distance,
    by a row with a greater key. *)
Definition newest_first {A : Type} (key : A -> Z) (l : list A) : Prop :=
  StronglySorted (fun a b => key b <= key a) l.

(** ** Sample data *)

Definition ana : CustomUser :=
  mkUser (Some 1) "ana" USUARIO "ana@itca.edu.sv" "Q7ZK2M9XB4TD" 0 true.

Definition luis : CustomUser :=
  mkUser (Some 2) "luis" TECNICO "luis@itca.edu.sv" "H3VW8N5RC1YE" 1 true.

Definition campus : Store := mkStore [ana; luis] [] [] [] [] 2 0.

Definition printer_jam : NewTicket :=
  mkNewTicket 1 "La impresora del laboratorio 3 no imprime" IMPRESORA None
    "HP LaserJet" None.

Definition morning (y m d : Z) : datetime := mkDatetime y m d 8 30 0 0.

(** The next reading of the clock, a microsecond later. *)
Definition just_after (y m d : Z) : datetime := mkDatetime y m d 8 30 0 1.

(** Three tickets filed on consecutive days of January 2025. *)
Definition january : list Creation :=
  [ (morning 2025 1 13, morning 2025 1 13, just_after 2025 1 13,
     printer_jam);
    (morning 2025 1 14, morning 2025 1 14, just_after 2025 1 14,
     printer_jam);
    (morning 2025 1 15, morning 2025 1 15, just_after 2025 1 15,
     printer_jam) ].

Definition campus_2025 : Store := create_tickets campus january.

(** Two tickets filed while the clock was set back between them: the
    second carries the earlier timestamp. *)
Definition clock_set_back : list Creation :=
  [ (morning 2025 1 14, morning 2025 1 14, just_after 2025 1 14,
     printer_jam);
    (morning 2025 1 13, morning 2025 1 13, just_after 2025 1 13,
     printer_jam) ].

Definition campus_skewed : Store := create_tickets campus clock_set_back.

(** [t] with another description. *)
Definition with_description (t : Ticket) (d : string) : Ticket :=
  mkTicket (ticket_id t) (ticket_number t) (ticket_user t) d
    (category t) (priority t) (status t) (affected_equipment t)
    (serial_number t) (visit_date t) (visit_time t) (rejection_reason t)
    (closure_note t) (created_at t) (updated_at t) (closed_at t).

(** The first ticket of 2025, as filed and after its rejection the next
    morning. *)
Definition filed : Ticket :=
  mkTicket 1 "TCK-2025-0001" 1 "La impresora del laboratorio 3 no imprime"
    IMPRESORA MEDIA ABIERTO "HP LaserJet" None None None None None
    (morning 2025 1 13) (morning 2025 1 13) None.

Definition turned_down : Ticket :=
  mkTicket 1 "TCK-2025-0001" 1 "La impresora del laboratorio 3 no imprime"
    IMPRESORA MEDIA RECHAZADO "HP LaserJet" None None None
    (Some "Equipo fuera de garantia") None
    (morning 2025 1 13) (morning 2025 1 14) (Some (morning 2025 1 14)).

(** Ana's ticket with its audit trail: filed by her, taken up by Luis. *)
Definition filed_row : TicketHistory :=
  mkHistory 1 1 (Some 1) CREATED None (morning 2025 1 13).

Definition taken_up_row : TicketHistory :=
  mkHistory 2 1 (Some 2) STATUS_CHANGED None (morning 2025 1 14).

Definition campus_audited : Store :=
  mkStore [ana; luis] [filed] [] [filed_row; taken_up_row] [] 2 1.



(** January 2025 without its last ticket, and that ticket. *)
Definition early_january : list Ticket := removelast (tickets campus_2025).

Definition last_of_january : Ticket := last (tickets campus_2025) filed.

(** A random source for the examples. *)
Definition dice : SystemRandom := mkRandom (fun i => N.of_nat (7 * i + 3)) 0.

(** Carmen, whose code was sent three times and then switched off, and
    Rafael, who already holds the code that [dice] delivers next. *)
Definition carmen : CustomUser :=
  mkUser (Some 3) "carmen" USUARIO "carmen@itca.edu.sv" "W5PL8QA3ZN6J" 3
    false.

Definition rafael : CustomUser :=
  mkUser (Some 4) "rafael" USUARIO "rafael@itca.edu.sv" "DKRY5CJQX4BI" 0
    true.

Definition campus_taken : Store := mkStore [carmen; rafael] [] [] [] [] 4 0.

(** * Properties *)

(** ** The operations on small inputs *)

Example format_04d_examples :
  format_04d 1 = "0001" /\ format_04d 9999 = "9999"
  /\ format_04d 10000 = "10000" /\ format_04d (-5) = "-005".
Proof. repeat split. Qed.

Example py_int_examples :
  py_int "0042" = Ok 42 /\ py_int " 1_000 " = Ok 1000
  /\ py_int "-7" = Ok (-7) /\ py_int "" = Raise ValueError
  /\ py_int "12a" = Raise ValueError /\ py_int "1__0" = Raise ValueError.
Proof. repeat split. Qed.

Example py_split_examples :
  py_split "-" "TCK-2025-0001" = ["TCK"; "2025"; "0001"]
  /\ py_split "-" "" = [""] /\ py_split "-" "a-" = ["a"; ""].
Proof. repeat split. Qed.

Example first_numbers_of_2025 :
  generate_ticket_number empty_store (morning 2025 1 13) = Ok "TCK-2025-0001"
  /\ map ticket_number (tickets campus_2025)
     = ["TCK-2025-0001"; "TCK-2025-0002"; "TCK-2025-0003"]
  /\ generate_ticket_number campus_2025 (morning 2025 3 3)
     = Ok "TCK-2025-0004".
Proof. repeat split. Qed.

(** The lookup has no dash after the year: in the year 202 the tickets
    of 2025 match the prefix. *)
Example year_prefix_without_dash :
  generate_ticket_number campus_2025 (morning 202 3 3) = Ok "TCK-202-0004".
Proof. reflexivity. Qed.

Example filed_is_created :
  exists db', create_ticket campus (morning 2025 1 13) (morning 2025 1 13)
                (morning 2025 1 13) printer_jam = Ok (filed, db').
Proof. eexists. reflexivity. Qed.

Example regenerate_code_ana :
  rg_result (regenerate_code ana campus dice) = Ok "DKRY5CJQX4BI"
  /\ users (rg_db (regenerate_code ana campus dice))
     = [mkUser (Some 1) "ana" USUARIO "ana@itca.edu.sv" "DKRY5CJQX4BI" 0 true;
        luis].
Proof. split; reflexivity. Qed.

Example short_descriptions :
  get_short_description filed = "La impresora del laboratorio 3 no imprime"
  /\ get_short_description
       (with_description filed
          "El proyector del aula 12 parpadea y se apaga a los diez minutos")
     = "El proyector del aula 12 parpadea y se apaga a los...".
Proof. split; reflexivity. Qed.

(** ** Strings of digits *)

Lemma append_assoc_s (a b c : string) : (a ++ b) ++ c = a ++ (b ++ c).
Proof. induction a as [|x a IH]; simpl; [reflexivity | now rewrite IH]. Qed.

Lemma append_nil_r_s (a : string) : a ++ "" = a.
Proof. induction a as [|x a IH]; simpl; [reflexivity | now rewrite IH]. Qed.

Lemma length_append_s (a b : string) :
  String.length (a ++ b) = (String.length a + String.length b)%nat.
Proof. induction a as [|x a IH]; simpl; [reflexivity | now rewrite IH]. Qed.

Lemma all_chars_append (p : ascii -> bool) (a b : string) :
  all_chars p (a ++ b) = all_chars p a && all_chars p b.
Proof.
  induction a as [|x a IH]; simpl; [reflexivity|].
  now rewrite IH, andb_assoc.
Qed.

Lemma all_digits_append (a b : string) :
  all_digits (a ++ b) = all_digits a && all_digits b.
Proof.
  induction a as [|x a IH]; simpl; [reflexivity|].
  now rewrite IH, andb_assoc.
Qed.

Lemma digit_char_ok (d : Z) :
  0 <= d < 10 -> is_digit (digit_char d) = true /\ digit_val (digit_char d) = d.
Proof.
  intros H.
  assert (E : d = 0 \/ d = 1 \/ d = 2 \/ d = 3 \/ d = 4 \/ d = 5 \/ d = 6
              \/ d = 7 \/ d = 8 \/ d = 9) by lia.
  repeat (destruct E as [E | E]; [subst d; split; reflexivity|]).
  subst d; split; reflexivity.
Qed.

Lemma is_digit_val_range (c : ascii) :
  is_digit c = true -> 0 <= digit_val c < 10.
Proof.
  unfold is_digit, digit_val; cbv zeta.
  rewrite andb_true_iff, !N.leb_le. lia.
Qed.

Lemma digits_val_append (a b : string) (acc : Z) :
  digits_val (a ++ b) acc = digits_val b (digits_val a acc).
Proof.
  revert acc; induction a as [|x a IH]; intros acc; simpl; [reflexivity|].
  apply IH.
Qed.

Lemma digits_val_ge (s : string) (acc : Z) :
  all_digits s = true -> 0 <= acc -> acc <= digits_val s acc.
Proof.
  revert acc; induction s as [|c s IH]; intros acc Hd Hacc;
    cbn [digits_val]; [lia|].
  cbn [all_digits] in Hd. apply andb_true_iff in Hd as [Hc Hs].
  pose proof (is_digit_val_range c Hc) as Hr.
  assert (Hacc' : 0 <= 10 * acc + digit_val c) by lia.
  pose proof (IH (10 * acc + digit_val c) Hs Hacc'). lia.
Qed.

Lemma digits_val_zeros (k : nat) (s : string) :
  digits_val (zeros k ++ s) 0 = digits_val s 0.
Proof. induction k as [|k IH]; simpl; [reflexivity | exact IH]. Qed.

Lemma all_digits_zeros (k : nat) : all_digits (zeros k) = true.
Proof. induction k as [|k IH]; simpl; [reflexivity | exact IH]. Qed.

Lemma length_zeros (k : nat) : String.length (zeros k) = k.
Proof. induction k as [|k IH]; simpl; [reflexivity | now rewrite IH]. Qed.

Lemma digits_go_spec (f : nat) :
  forall n acc, 0 <= n < 2 ^ Z.of_nat (S f) ->
  exists d, digits_go (S f) n acc = d ++ acc
            /\ all_digits d = true /\ d <> "" /\ digits_val d 0 = n.
Proof.
  induction f as [|f IH]; intros n acc Hn.
  - exists (String (digit_char (n mod 10)) "").
    change (2 ^ Z.of_nat 1) with 2 in Hn.
    assert (Hq : n / 10 = 0) by (apply Z.div_small; lia).
    assert (Hm : n mod 10 = n) by (apply Z.mod_small; lia).
    destruct (digit_char_ok (n mod 10)) as [Hd Hv]; [rewrite Hm; lia|].
    simpl digits_go. rewrite Hq. simpl.
    rewrite Hd, Hv. repeat split; try lia; discriminate.
  - assert (Hr : 0 <= n mod 10 < 10) by (apply Z.mod_pos_bound; lia).
    destruct (digit_char_ok (n mod 10) Hr) as [Hd Hv].
    pose proof (Z.div_mod n 10 ltac:(lia)) as Hdm.
    change (digits_go (S (S f)) n acc) with
      (let acc' := String (digit_char (n mod 10)) acc in
       if n / 10 =? 0 then acc' else digits_go (S f) (n / 10) acc').
    cbv zeta. destruct (n / 10 =? 0) eqn:Hq.
    + apply Z.eqb_eq in Hq.
      exists (String (digit_char (n mod 10)) ""). simpl.
      rewrite Hd, Hv. repeat split; try lia; discriminate.
    + assert (Hb : 0 <= n / 10 < 2 ^ Z.of_nat (S f)).
      { split; [apply Z.div_pos; lia|].
        apply Z.div_lt_upper_bound; [lia|].
        rewrite (Nat2Z.inj_succ (S f)), Z.pow_succ_r in Hn by lia. lia. }
      destruct (IH (n / 10) (String (digit_char (n mod 10)) acc) Hb)
        as (d & Hgo & Hall & Hne & Hval).
      exists (d ++ String (digit_char (n mod 10)) "").
      rewrite Hgo, append_assoc_s, all_digits_append, digits_val_append.
      rewrite Hall, Hval. cbn [append all_digits digits_val andb].
      rewrite Hd, Hv.
      repeat split; try lia.
      destruct d; [congruence | discriminate].
Qed.

Lemma str_nonneg_spec (n : Z) :
  0 <= n ->
  all_digits (str_nonneg n) = true /\ str_nonneg n <> ""
  /\ digits_val (str_nonneg n) 0 = n.
Proof.
  intros Hn. unfold str_nonneg.
  destruct (digits_go_spec (Z.to_nat (Z.log2 n)) n "") as (d & Hgo & H1 & H2 & H3).
  - split; [lia|].
    rewrite Nat2Z.inj_succ, Z2Nat.id by apply Z.log2_nonneg.
    destruct (Z.eq_dec n 0) as [-> | Hz]; [reflexivity|].
    apply Z.log2_spec. lia.
  - rewrite Hgo, append_nil_r_s. auto.
Qed.

Lemma str_nonneg_inj (a b : Z) :
  0 <= a -> 0 <= b -> str_nonneg a = str_nonneg b -> a = b.
Proof.
  intros Ha Hb E.
  destruct (str_nonneg_spec a Ha) as (_ & _ & Va).
  destruct (str_nonneg_spec b Hb) as (_ & _ & Vb).
  rewrite <- Va, <- Vb, E. reflexivity.
Qed.

(** ** Parsing what was printed *)

Lemma digit_not_special (c : ascii) :
  is_digit c = true ->
  is_space c = false /\ Ascii.eqb c "-" = false /\ Ascii.eqb c "+" = false
  /\ ascii_upper c = c.
Proof.
  destruct c as [[] [] [] [] [] [] [] []]; intros H;
    solve [discriminate H | repeat split; reflexivity].
Qed.

Lemma upper_digit (c : ascii) :
  is_digit (ascii_upper c) = true -> ascii_upper c = c.
Proof.
  destruct c as [[] [] [] [] [] [] [] []]; intros H;
    solve [discriminate H | reflexivity].
Qed.

Lemma strip_no_space (s : string) :
  all_chars (fun c => negb (is_space c)) s = true -> strip s = s.
Proof.
  intros Hd. unfold strip.
  assert (Hl : lstrip s = s).
  { destruct s as [|c r]; [reflexivity|]. cbn [all_chars] in Hd.
    apply andb_true_iff in Hd as [Hc _]. apply negb_true_iff in Hc.
    cbn [lstrip]. now rewrite Hc. }
  rewrite Hl. clear Hl.
  induction s as [|c r IH]; [reflexivity|].
  cbn [all_chars] in Hd. apply andb_true_iff in Hd as [Hc Hr].
  apply negb_true_iff in Hc.
  cbn [rstrip]. rewrite (IH Hr), Hc. now destruct r.
Qed.

Lemma all_digits_no_space (s : string) :
  all_digits s = true -> all_chars (fun c => negb (is_space c)) s = true.
Proof.
  induction s as [|c r IH]; intros H; [reflexivity|].
  cbn [all_digits] in H. apply andb_true_iff in H as [Hc Hr].
  cbn [all_chars]. destruct (digit_not_special c Hc) as (-> & _).
  now rewrite IH.
Qed.

Lemma strip_digits (s : string) : all_digits s = true -> strip s = s.
Proof. intros H. now apply strip_no_space, all_digits_no_space. Qed.

Lemma int_digits_all_digits (s : string) :
  forall acc prev,
    all_digits s = true -> s <> "" \/ prev = true ->
    int_digits s acc prev = Some (digits_val s acc).
Proof.
  induction s as [|c r IH]; intros acc prev Hd Hne.
  - destruct Hne as [Hne | ->]; [congruence | reflexivity].
  - cbn [all_digits] in Hd. apply andb_true_iff in Hd as [Hc Hr].
    cbn [int_digits digits_val]. rewrite Hc. apply IH; auto.
Qed.

Lemma py_int_all_digits (s : string) :
  all_digits s = true -> s <> "" -> py_int s = Ok (digits_val s 0).
Proof.
  intros Hd Hne. unfold py_int. rewrite (strip_digits s Hd).
  destruct s as [|c r]; [congruence|].
  pose proof Hd as Hd'. cbn [all_digits] in Hd'.
  apply andb_true_iff in Hd' as [Hc _].
  destruct (digit_not_special c Hc) as (_ & -> & -> & _).
  rewrite int_digits_all_digits by auto.
  f_equal. lia.
Qed.

Lemma format_04d_nonneg (n : Z) :
  0 <= n ->
  format_04d n = zeros (4 - String.length (str_nonneg n)) ++ str_nonneg n.
Proof.
  intros Hn. unfold format_04d.
  rewrite Z.abs_eq by exact Hn.
  destruct (n <? 0) eqn:E; [apply Z.ltb_lt in E; lia | reflexivity].
Qed.

Lemma format_04d_all_digits (n : Z) :
  0 <= n -> all_digits (format_04d n) = true /\ format_04d n <> "".
Proof.
  intros Hn. rewrite format_04d_nonneg by exact Hn.
  destruct (str_nonneg_spec n Hn) as (Hd & Hne & _).
  rewrite all_digits_append, all_digits_zeros, Hd. split; [reflexivity|].
  intros E. apply (f_equal String.length) in E.
  rewrite length_append_s in E. cbn [String.length] in E.
  destruct (str_nonneg n); [congruence | cbn [String.length] in E; lia].
Qed.

Lemma py_int_format_04d (n : Z) : 0 <= n -> py_int (format_04d n) = Ok n.
Proof.
  intros Hn.
  destruct (format_04d_all_digits n Hn) as [Hd Hne].
  rewrite py_int_all_digits by assumption.
  rewrite format_04d_nonneg, digits_val_zeros by exact Hn.
  now destruct (str_nonneg_spec n Hn) as (_ & _ & ->).
Qed.

(** ** Splitting *)

Lemma py_split_nonempty (sep : ascii) (s : string) : py_split sep s <> [].
Proof.
  destruct s as [|c r]; cbn [py_split]; [discriminate|].
  destruct (Ascii.eqb c sep); [discriminate|].
  destruct (py_split sep r); discriminate.
Qed.

Lemma py_split_append (sep : ascii) (a b : string) :
  py_split sep (a ++ String sep b) = (py_split sep a ++ py_split sep b)%list.
Proof.
  induction a as [|c a IH]; cbn [append py_split].
  - now rewrite Ascii.eqb_refl.
  - rewrite IH. destruct (Ascii.eqb c sep); [reflexivity|].
    pose proof (py_split_nonempty sep a) as Hne.
    destruct (py_split sep a) as [|h t]; [congruence | reflexivity].
Qed.

Lemma py_split_no_sep (sep : ascii) (s : string) :
  all_chars (fun c => negb (Ascii.eqb c sep)) s = true ->
  py_split sep s = [s].
Proof.
  induction s as [|c r IH]; intros H; [reflexivity|].
  cbn [all_chars] in H. apply andb_true_iff in H as [Hc Hr].
  cbn [py_split]. apply negb_true_iff in Hc. rewrite Hc, (IH Hr).
  reflexivity.
Qed.

Lemma last_app_nonempty {A : Type} (l1 l2 : list A) (d : A) :
  l2 <> [] -> last (l1 ++ l2)%list d = last l2 d.
Proof.
  intros Hne. induction l1 as [|x l1 IH]; [reflexivity|].
  cbn [app]. destruct (l1 ++ l2)%list eqn:E.
  - apply app_eq_nil in E as [_ E]. congruence.
  - rewrite <- IH. reflexivity.
Qed.

Lemma all_digits_no_dash (s : string) :
  all_digits s = true ->
  all_chars (fun c => negb (Ascii.eqb c "-")) s = true.
Proof.
  induction s as [|c r IH]; intros H; [reflexivity|].
  cbn [all_digits] in H. apply andb_true_iff in H as [Hc Hr].
  cbn [all_chars]. destruct (digit_not_special c Hc) as (_ & -> & _).
  now rewrite IH.
Qed.

Lemma last_item_split (a b : string) :
  all_digits b = true ->
  last_item (py_split "-" (a ++ String "-" b)) = b.
Proof.
  intros Hb. unfold last_item.
  rewrite py_split_append, last_app_nonempty by apply py_split_nonempty.
  now rewrite py_split_no_sep by now apply all_digits_no_dash.
Qed.

Lemma sequence_of_ticket_number (year n : Z) :
  0 <= n ->
  py_int (last_item (py_split "-" (ticket_number_format year n))) = Ok n.
Proof.
  intros Hn. unfold ticket_number_format.
  change ("-" ++ format_04d n) with (String "-" (format_04d n)).
  rewrite last_item_split by now apply format_04d_all_digits.
  now apply py_int_format_04d.
Qed.

(** ** Prefixes *)



Lemma startswith_digits (p s : string) :
  all_digits p = true -> startswith p s = true -> exists r, s = p ++ r.
Proof.
  revert s; induction p as [|a p IH]; intros s Hd Hs.
  - now exists s.
  - cbn [all_digits] in Hd. apply andb_true_iff in Hd as [Ha Hp].
    destruct s as [|b s]; [discriminate Hs|].
    cbn [startswith] in Hs. apply andb_true_iff in Hs as [Hab Hs].
    apply Ascii.eqb_eq in Hab.
    destruct (digit_not_special a Ha) as (_ & _ & _ & Hu).
    rewrite Hu in Hab.
    assert (Hb : b = a).
    { symmetry. rewrite Hab. apply upper_digit. now rewrite <- Hab. }
    subst b. destruct (IH s Hp Hs) as [r ->]. now exists r.
Qed.

Lemma digits_before_separator (p q r f : string) (c : ascii) :
  all_digits p = true -> is_digit c = false ->
  p ++ r = q ++ String c f -> exists m, q = p ++ m.
Proof.
  revert q; induction p as [|a p IH]; intros q Hd Hc E.
  - now exists q.
  - cbn [all_digits] in Hd. apply andb_true_iff in Hd as [Ha Hp].
    destruct q as [|b q]; cbn [append] in E.
    + injection E as -> _. congruence.
    + injection E as -> E. destruct (IH q Hp Hc E) as [m ->]. now exists m.
Qed.

Lemma year_le_of_prefix (y y' : Z) (r f : string) :
  0 <= y -> 0 <= y' ->
  str_nonneg y' ++ r = str_nonneg y ++ String "-" f -> y' <= y.
Proof.
  intros Hy Hy' E.
  destruct (str_nonneg_spec y Hy) as (Dy & _ & Vy).
  destruct (str_nonneg_spec y' Hy') as (Dy' & _ & Vy').
  destruct (digits_before_separator _ _ _ _ "-" Dy' eq_refl E) as [m Hm].
  rewrite Hm, digits_val_append, Vy' in Vy.
  rewrite Hm, all_digits_append, Dy' in Dy. cbn [andb] in Dy.
  pose proof (digits_val_ge m y' Dy Hy'). lia.
Qed.

Lemma py_str_int_nonneg (y : Z) : 0 <= y -> py_str_int y = str_nonneg y.
Proof.
  intros Hy. unfold py_str_int.
  destruct (y <? 0) eqn:E; [apply Z.ltb_lt in E; lia | reflexivity].
Qed.

Lemma ticket_number_unfold (y n : Z) :
  0 <= y ->
  ticket_number_format y n
  = "TCK-" ++ str_nonneg y ++ String "-" (format_04d n).
Proof.
  intros Hy. unfold ticket_number_format, year_prefix.
  rewrite py_str_int_nonneg by exact Hy. now rewrite append_assoc_s.
Qed.

(** The prefix of a year matches no number printed for an earlier year. *)
Lemma earlier_year_not_matched (y y' n : Z) :
  0 <= y < y' ->
  startswith (year_prefix y') (ticket_number_format y n) = false.
Proof.
  intros Hy. destruct (startswith _ _) eqn:E; [exfalso | reflexivity].
  rewrite ticket_number_unfold in E by lia.
  unfold year_prefix in E. rewrite py_str_int_nonneg in E by lia.
  cbn [append startswith] in E.
  rewrite !Ascii.eqb_refl in E. cbn [andb] in E.
  destruct (str_nonneg_spec y' ltac:(lia)) as (Dy' & _ & _).
  destruct (startswith_digits _ _ Dy' E) as [r Hr].
  symmetry in Hr. apply year_le_of_prefix in Hr; lia.
Qed.

Lemma ticket_number_format_year_inj (y y' n n' : Z) :
  0 <= y -> 0 <= y' ->
  ticket_number_format y n = ticket_number_format y' n' -> y = y'.
Proof.
  intros Hy Hy' E.
  rewrite !ticket_number_unfold in E by assumption.
  cbn [append] in E. injection E as E.
  pose proof (year_le_of_prefix y' y _ _ Hy' Hy E).
  symmetry in E. pose proof (year_le_of_prefix y y' _ _ Hy Hy' E). lia.
Qed.

Lemma ticket_number_format_inj (y n n' : Z) :
  0 <= n -> 0 <= n' ->
  ticket_number_format y n = ticket_number_format y n' -> n = n'.
Proof.
  intros Hn Hn' E.
  pose proof (sequence_of_ticket_number y n Hn) as A.
  pose proof (sequence_of_ticket_number y n' Hn') as B.
  rewrite E in A. congruence.
Qed.

(** ** Ordered querysets *)

Section OrderByFacts.
Context {A : Type} (key : A -> Z).

Lemma insert_desc_perm (x : A) (l : list A) :
  Permutation (insert_desc key x l) (x :: l).
Proof.
  induction l as [|y r IH]; cbn [insert_desc]; [constructor; constructor|].
  destruct (key y <=? key x); [apply Permutation_refl|].
  eapply perm_trans; [apply perm_skip, IH | apply perm_swap].
Qed.

Lemma order_by_desc_perm (l : list A) :
  Permutation (order_by_desc key l) l.
Proof.
  induction l as [|x l IH]; [constructor|].
  cbn [order_by_desc fold_right].
  eapply perm_trans; [apply insert_desc_perm | now apply perm_skip].
Qed.

Lemma insert_desc_sorted (x : A) (l : list A) :
  newest_first key l -> newest_first key (insert_desc key x l).
Proof.
  unfold newest_first.
  induction l as [|y r IH]; intros Hs; cbn [insert_desc].
  - repeat constructor.
  - apply StronglySorted_inv in Hs as [Hr Hy].
    destruct (key y <=? key x) eqn:E.
    + apply Z.leb_le in E. constructor; [now constructor|].
      constructor; [exact E|].
      eapply Forall_impl; [|exact Hy]. cbv beta. intros; lia.
    + apply Z.leb_gt in E. constructor; [now apply IH|].
      eapply Permutation_Forall;
        [apply Permutation_sym, insert_desc_perm|].
      constructor; [lia | exact Hy].
Qed.

Lemma order_by_desc_sorted (l : list A) :
  newest_first key (order_by_desc key l).
Proof.
  induction l as [|x l IH]; [constructor|].
  cbn [order_by_desc fold_right]. now apply insert_desc_sorted.
Qed.

Lemma first_order_by_desc (l : list A) (t : A) :
  first (order_by_desc key l) = Some t ->
  In t l /\ forall t', In t' l -> key t' <= key t.
Proof.
  intros Hf.
  pose proof (order_by_desc_perm l) as Hp.
  pose proof (order_by_desc_sorted l) as Hs.
  destruct (order_by_desc key l) as [|h r]; [discriminate|].
  injection Hf as ->. split.
  - eapply Permutation_in; [exact Hp | now left].
  - intros t' Hin.
    apply (Permutation_in _ (Permutation_sym Hp)) in Hin.
    apply StronglySorted_inv in Hs as [_ Hall].
    destruct Hin as [-> | Hin]; [lia|].
    rewrite Forall_forall in Hall. now apply Hall.
Qed.

Lemma first_order_by_desc_none (l : list A) :
  first (order_by_desc key l) = None -> l = [].
Proof.
  intros Hf. pose proof (order_by_desc_perm l) as Hp.
  destruct (order_by_desc key l); [|discriminate].
  now apply Permutation_nil.
Qed.
End OrderByFacts.

(** ** The shape of a ticket number *)

Lemma digits_val_lt (s : string) :
  forall acc, all_digits s = true -> 0 <= acc ->
  digits_val s acc < (acc + 1) * 10 ^ Z.of_nat (String.length s).
Proof.
  induction s as [|c r IH]; intros acc Hd Hacc.
  - cbn [digits_val String.length]. change (10 ^ Z.of_nat 0) with 1. lia.
  - cbn [all_digits] in Hd. apply andb_true_iff in Hd as [Hc Hr].
    pose proof (is_digit_val_range c Hc) as Hv.
    cbn [digits_val String.length].
    assert (Hacc' : 0 <= 10 * acc + digit_val c) by lia.
    pose proof (IH _ Hr Hacc') as Hlt.
    rewrite Nat2Z.inj_succ, Z.pow_succ_r by lia.
    assert (Hp : 0 < 10 ^ Z.of_nat (String.length r))
      by (apply Z.pow_pos_nonneg; lia).
    nia.
Qed.



Lemma format_04d_length (n : Z) :
  String.length (format_04d n) = Nat.max 4 (String.length (py_str_int n)).
Proof.
  unfold format_04d, py_str_int.
  destruct (n <? 0) eqn:E.
  - apply Z.ltb_lt in E. rewrite <- Z.abs_neq by lia.
    cbn [String.length]. rewrite length_append_s, length_zeros. lia.
  - rewrite length_append_s, length_zeros.
    apply Z.ltb_ge in E. rewrite Z.abs_eq by lia. lia.
Qed.



Lemma generate_ticket_number_format (db : Store) (now : datetime)
  (number : string) :
  generate_ticket_number db now = Ok number ->
  exists n, number = ticket_number_format (dt_year now) n.
Proof.
  unfold generate_ticket_number. cbv zeta.
  destruct (first _) as [t|]; cbn [bind].
  - destruct (py_int _) as [k|e]; cbn [bind]; [|discriminate].
    intros [= <-]. now exists (k + 1).
  - intros [= <-]. now exists 1.
Qed.



(** ** Which ticket the generator continues from *)

Lemma filter_nil_forall {A : Type} (p : A -> bool) (l : list A) :
  filter p l = [] -> Forall (fun x => p x = false) l.
Proof.
  induction l as [|x l IH]; intros H; [constructor|].
  cbn [filter] in H. destruct (p x) eqn:E; [discriminate|].
  constructor; auto.
Qed.

Lemma forall_filter_nil {A : Type} (p : A -> bool) (l : list A) :
  Forall (fun x => p x = false) l -> filter p l = [].
Proof.
  induction 1 as [|x l Hx _ IH]; [reflexivity|].
  cbn [filter]. now rewrite Hx.
Qed.

Lemma generate_ticket_number_no_match (db : Store) (now : datetime) :
  Forall (fun t => of_year (dt_year now) t = false) (tickets db) ->
  generate_ticket_number db now = Ok (ticket_number_format (dt_year now) 1).
Proof.
  intros H. unfold generate_ticket_number. cbv zeta.
  change (fun t => startswith (year_prefix (dt_year now)) (ticket_number t))
    with (of_year (dt_year now)).
  now rewrite (forall_filter_nil _ _ H).
Qed.

Lemma generate_ticket_number_cases (db : Store) (now : datetime) :
  let year := dt_year now in
  (Forall (fun t => of_year year t = false) (tickets db)
   /\ generate_ticket_number db now = Ok (ticket_number_format year 1))
  \/ (exists last_ticket,
        In last_ticket (tickets db)
        /\ of_year year last_ticket = true
        /\ Forall (fun t => of_year year t = true ->
                            created_key t <= created_key last_ticket)
                  (tickets db)
        /\ generate_ticket_number db now
           = (last_num <-
                py_int (last_item (py_split "-" (ticket_number last_ticket))) ;;
              Ok (ticket_number_format year (last_num + 1)))).
Proof.
  cbv zeta. unfold generate_ticket_number. cbv zeta.
  change (fun t => startswith (year_prefix (dt_year now)) (ticket_number t))
    with (of_year (dt_year now)).
  destruct (first _) as [t|] eqn:Hf.
  - right. exists t.
    apply first_order_by_desc in Hf as [Hin Hmax].
    apply filter_In in Hin as [Hin Hy].
    repeat split; try assumption.
    + apply Forall_forall. intros t' Hin' Hy'.
      apply Hmax, filter_In. now split.
    + destruct (py_int _); reflexivity.
  - left. apply first_order_by_desc_none, filter_nil_forall in Hf.
    split; [exact Hf|]. reflexivity.
Qed.

(** C1, as the code has it: when no ticket number starts with the prefix
    of the current year the generator returns sequence 1; otherwise it
    takes a ticket with that prefix whose [created_at] is the latest,
    parses what follows the last dash of its number, and returns the
    successor, or raises what [int] raises. *)
Theorem generate_ticket_number_latest (db : Store) (now : datetime) :
  let year := dt_year now in
  (Forall (fun t => of_year year t = false) (tickets db)
   /\ generate_ticket_number db now = Ok (ticket_number_format year 1))
  \/ (exists last_ticket,
        In last_ticket (tickets db)
        /\ of_year year last_ticket = true
        /\ Forall (fun t => of_year year t = true ->
                            created_key t <= created_key last_ticket)
                  (tickets db)
        /\ generate_ticket_number db now
           = (last_num <-
                py_int (last_item (py_split "-" (ticket_number last_ticket))) ;;
              Ok (ticket_number_format year (last_num + 1)))).
Proof. exact (generate_ticket_number_cases db now). Qed.

(** C1, counterexample: with the clock set back between two creations the
    latest ticket by [created_at] is number 0001 while the highest
    sequence is 2; the generator returns 0002, not the successor of the
    highest sequence, 0003. *)
Lemma generate_ticket_number_not_highest :
  map ticket_number (tickets campus_skewed) = ["TCK-2025-0001"; "TCK-2025-0002"]
  /\ generate_ticket_number campus_skewed (morning 2025 1 15)
     = Ok "TCK-2025-0002"
  /\ generate_ticket_number_by_highest campus_skewed (morning 2025 1 15)
     = "TCK-2025-0003"
  /\ generate_ticket_number campus_skewed (morning 2025 1 15)
     <> Ok (generate_ticket_number_by_highest campus_skewed
              (morning 2025 1 15)).
Proof.
  repeat split; try reflexivity.
  vm_compute. discriminate.
Qed.

(** ** Default listings *)

(** C9: the default listing of tickets, of history rows and of
    notifications holds exactly the rows of the table, newest first by
    [created_at], [timestamp] and [created_at]. *)
Theorem default_listings_newest_first (db : Store) :
  (newest_first created_key (Ticket_objects_all db)
   /\ Permutation (Ticket_objects_all db) (tickets db))
  /\ (newest_first timestamp_key (TicketHistory_objects_all db)
      /\ Permutation (TicketHistory_objects_all db) (history db))
  /\ (newest_first notification_key (Notification_objects_all db)
      /\ Permutation (Notification_objects_all db) (notifications db)).
Proof.
  repeat split;
    first [apply order_by_desc_sorted | apply order_by_desc_perm].
Qed.

(** ** Short descriptions *)

Lemma slice_to_prefix (k : nat) (s : string) :
  (k <= String.length s)%nat ->
  String.length (slice_to k s) = k /\ exists rest, s = slice_to k s ++ rest.
Proof.
  revert s; induction k as [|k IH]; intros s Hk.
  - split; [reflexivity | now exists s].
  - destruct s as [|c r]; cbn [String.length] in Hk; [lia|].
    destruct (IH r ltac:(lia)) as [Hl [rest Hr]].
    cbn [slice_to String.length append]. split; [now rewrite Hl|].
    exists rest. now rewrite <- Hr.
Qed.

(** C10: a description of at most 50 characters is returned as it is; a
    longer one is cut to its first 50 characters, followed by three dots;
    the result is never longer than 53 characters. *)
Theorem get_short_description_spec (self : Ticket) :
  ((String.length (description self) <= 50)%nat ->
   get_short_description self = description self)
  /\ ((50 < String.length (description self))%nat ->
      exists head rest,
        description self = head ++ rest
        /\ String.length head = 50%nat
        /\ get_short_description self = head ++ "...")
  /\ (String.length (get_short_description self) <= 53)%nat.
Proof.
  unfold get_short_description.
  destruct (50 <? String.length (description self))%nat eqn:E.
  - apply Nat.ltb_lt in E.
    destruct (slice_to_prefix 50 (description self) ltac:(lia)) as [Hl [rest Hr]].
    split; [lia|]. split.
    + intros _. exists (slice_to 50 (description self)), rest. auto.
    + rewrite length_append_s, Hl. cbn [String.length]. lia.
  - apply Nat.ltb_ge in E. split; [reflexivity|]. split; lia.
Qed.

(** ** Access codes *)

Lemma get_all_chars (p : ascii -> bool) (s : string) :
  all_chars p s = true ->
  forall i, (i < String.length s)%nat ->
  exists c, String.get i s = Some c /\ p c = true.
Proof.
  induction s as [|a r IH]; intros H i Hi; cbn [String.length] in Hi; [lia|].
  cbn [all_chars] in H. apply andb_true_iff in H as [Ha Hr].
  destruct i as [|i]; cbn [String.get].
  - now exists a.
  - apply IH; [exact Hr | lia].
Qed.

Lemma secrets_choice_in (p : ascii -> bool) (alphabet : string)
  (g : SystemRandom) :
  alphabet <> "" -> all_chars p alphabet = true ->
  p (fst (secrets_choice alphabet g)) = true.
Proof.
  intros Hne Hp. unfold secrets_choice, randbelow. cbn [fst].
  assert (Hlen : (0 < String.length alphabet)%nat)
    by (destruct alphabet; [congruence | cbn [String.length]; lia]).
  assert (Hi : (N.to_nat (entropy g (cursor g)
                          mod N.of_nat (String.length alphabet))
                < String.length alphabet)%nat).
  { pose proof (N.mod_upper_bound (entropy g (cursor g))
                  (N.of_nat (String.length alphabet)) ltac:(lia)). lia. }
  destruct (get_all_chars p alphabet Hp _ Hi) as (c & -> & Hc). exact Hc.
Qed.

Lemma join_choices_spec (p : ascii -> bool) (alphabet : string) (k : nat) :
  alphabet <> "" -> all_chars p alphabet = true ->
  forall g,
    String.length (fst (join_choices k alphabet g)) = k
    /\ all_chars p (fst (join_choices k alphabet g)) = true.
Proof.
  intros Hne Hp. induction k as [|k IH]; intros g; [split; reflexivity|].
  cbn [join_choices].
  pose proof (secrets_choice_in p alphabet g Hne Hp) as Hc.
  destruct (secrets_choice alphabet g) as [c g1]. cbn [fst] in Hc.
  specialize (IH g1). destruct (join_choices k alphabet g1) as [r g2].
  cbn [fst] in *. cbn [String.length all_chars].
  destruct IH as [-> ->]. now rewrite Hc.
Qed.

(** C5: whatever the random source delivers, the access code has exactly
    12 characters and each is an upper-case ASCII letter or a decimal
    digit. *)
Theorem generate_access_code_shape (g : SystemRandom) :
  String.length (fst (generate_access_code g)) = 12%nat
  /\ all_chars is_upper_or_digit (fst (generate_access_code g)) = true.
Proof.
  unfold generate_access_code.
  apply join_choices_spec; [discriminate | reflexivity].
Qed.

(** ** Consecutive numbering *)

Lemma Zseq_snoc (a : Z) (k : nat) :
  Zseq a (S k) = (Zseq a k ++ [a + Z.of_nat k])%list.
Proof.
  revert a; induction k as [|k IH]; intros a.
  - cbn [Zseq app]. f_equal. lia.
  - change (Zseq a (S (S k))) with (a :: Zseq (a + 1) (S k)).
    rewrite IH. cbn [Zseq app]. do 3 f_equal. lia.
Qed.


Lemma Zseq_In (a : Z) (k : nat) (i : Z) :
  In i (Zseq a k) <-> a <= i < a + Z.of_nat k.
Proof.
  revert a; induction k as [|k IH]; intros a; cbn [Zseq In]; [lia|].
  rewrite IH. lia.
Qed.

Lemma Zseq_length (a : Z) (k : nat) : List.length (Zseq a k) = k.
Proof.
  revert a; induction k as [|k IH]; intros a; cbn [Zseq List.length];
    [reflexivity | now rewrite IH].
Qed.


Lemma existsb_number_false (number : string) (l : list Ticket) :
  existsb (fun t => String.eqb (ticket_number t) number) l = false ->
  ~ In number (map ticket_number l).
Proof.
  intros H Hin. apply in_map_iff in Hin as (t & Ht & Hin).
  assert (existsb (fun t => String.eqb (ticket_number t) number) l = true).
  { apply existsb_exists. exists t. split; [exact Hin|].
    now apply String.eqb_eq. }
  congruence.
Qed.




Lemma ticket_numbers_distinct (year a : Z) (k : nat) :
  0 <= a -> NoDup (map (ticket_number_format year) (Zseq a k)).
Proof.
  revert a; induction k as [|k IH]; intros a Ha; cbn [Zseq map];
    constructor.
  - intros Hin. apply in_map_iff in Hin as (i & Hi & Hrange).
    apply Zseq_In in Hrange.
    apply ticket_number_format_inj in Hi; lia.
  - apply IH. lia.
Qed.



Lemma sorted_last_is_max (l1 l2 : list Ticket) (x : Ticket) :
  in_creation_order (l1 ++ x :: l2) ->
  Forall (fun t => created_key t <= created_key x) (l1 ++ x :: l2) ->
  l2 = [].
Proof.
  unfold in_creation_order. intros Hs Hmax.
  induction l1 as [|a l1 IH]; cbn [app] in *.
  - apply StronglySorted_inv in Hs as [_ Hx].
    apply Forall_cons_iff in Hmax as [_ Hmax].
    destruct l2 as [|b l2]; [reflexivity|].
    apply Forall_cons_iff in Hx as [Hx _].
    apply Forall_cons_iff in Hmax as [Hb _]. lia.
  - apply StronglySorted_inv in Hs as [Hs _].
    apply Forall_cons_iff in Hmax as [_ Hmax]. auto.
Qed.

(** With the year's tickets numbered 1, ..., k in creation order, the
    generator returns k + 1. *)
Lemma generate_ticket_number_next (year : Z) (k : nat) (db : Store)
  (now : datetime) :
  year_numbers year db = map (ticket_number_format year) (Zseq 1 k) ->
  in_creation_order (filter (of_year year) (tickets db)) ->
  dt_year now = year ->
  generate_ticket_number db now
  = Ok (ticket_number_format year (1 + Z.of_nat k)).
Proof.
  intros Hinv Hord Hy.
  destruct (generate_ticket_number_cases db now)
    as [[Hnone Hg] | (lt & Hin & Hyr & Hmax & Hg)];
    rewrite Hy in *; rewrite Hg.
  - apply forall_filter_nil in Hnone.
    unfold year_numbers in Hinv. rewrite Hnone in Hinv.
    destruct k; [reflexivity | discriminate Hinv].
  - assert (Hl : In lt (filter (of_year year) (tickets db)))
      by (apply filter_In; now split).
    apply in_split in Hl as (l1 & l2 & Hsplit).
    assert (Hl2 : l2 = []).
    { apply (sorted_last_is_max l1 l2 lt); rewrite <- Hsplit; [exact Hord|].
      apply Forall_forall. intros t Ht. apply filter_In in Ht as [Ht Hty].
      rewrite Forall_forall in Hmax. now apply Hmax. }
    subst l2. unfold year_numbers in Hinv.
    rewrite Hsplit, map_app in Hinv. cbn [map] in Hinv.
    destruct k as [|k]; [now destruct (map ticket_number l1)|].
    rewrite Zseq_snoc, map_app in Hinv. cbn [map] in Hinv.
    apply app_inj_tail in Hinv as [_ Hnum].
    rewrite Hnum, sequence_of_ticket_number by lia.
    cbn [bind]. do 2 f_equal. lia.
Qed.





(** ** A new year *)

(** C4: in year Y + 1, on a store all of whose tickets carry numbers of
    the years up to Y, however many, the generator returns sequence 1;
    and no number generated in year Y + 1 equals a number generated in
    year Y, whatever the stores. *)
Theorem first_ticket_of_new_year (Y : Z) (db : Store) (now : datetime) :
  1 <= Y ->
  dt_year now = Y + 1 ->
  Forall (fun t => exists y, 1 <= y <= Y /\ numbered_in y (ticket_number t))
         (tickets db) ->
  generate_ticket_number db now
  = Ok ("TCK-" ++ py_str_int (Y + 1) ++ "-0001")
  /\ Forall (fun t => forall n,
               ticket_number t <> ticket_number_format (Y + 1) n)
            (tickets db)
  /\ forall db1 now1 number1 db2 now2 number2,
       dt_year now1 = Y -> generate_ticket_number db1 now1 = Ok number1 ->
       dt_year now2 = Y + 1 -> generate_ticket_number db2 now2 = Ok number2 ->
       number1 <> number2.
Proof.
  intros HY Hnow Hold. split; [|split].
  - rewrite generate_ticket_number_no_match; rewrite Hnow; [reflexivity|].
    eapply Forall_impl; [|exact Hold]. cbv beta.
    intros t (y & Hy & n & Hn). unfold of_year. rewrite Hn.
    apply earlier_year_not_matched. lia.
  - eapply Forall_impl; [|exact Hold]. cbv beta.
    intros t (y & Hy & n & Hn) n' E. rewrite Hn in E.
    apply ticket_number_format_year_inj in E; lia.
  - intros db1 now1 number1 db2 now2 number2 Hy1 Hg1 Hy2 Hg2 E.
    apply generate_ticket_number_format in Hg1 as [n1 ->].
    apply generate_ticket_number_format in Hg2 as [n2 E2].
    rewrite E2, Hy1, Hy2 in E.
    apply ticket_number_format_year_inj in E; lia.
Qed.

Lemma first_ticket_of_new_year_witness :
  map ticket_number (tickets campus_2025)
  = ["TCK-2025-0001"; "TCK-2025-0002"; "TCK-2025-0003"]
  /\ generate_ticket_number campus_2025 (morning 2026 1 5)
     = Ok ("TCK-" ++ py_str_int (2025 + 1) ++ "-0001")
  /\ Forall (fun t => forall n,
               ticket_number t <> ticket_number_format (2025 + 1) n)
            (tickets campus_2025)
  /\ forall db1 now1 number1 db2 now2 number2,
       dt_year now1 = 2025 -> generate_ticket_number db1 now1 = Ok number1 ->
       dt_year now2 = 2025 + 1 ->
       generate_ticket_number db2 now2 = Ok number2 ->
       number1 <> number2.
Proof.
  split; [reflexivity|].
  apply (first_ticket_of_new_year 2025 campus_2025 (morning 2026 1 5));
    [lia | reflexivity |].
  repeat constructor.
  - exists 2025. split; [lia | now exists 1].
  - exists 2025. split; [lia | now exists 2].
  - exists 2025. split; [lia | now exists 3].
Defined.

(** ** Regenerating an access code *)

Lemma save_user_cases (db : Store) (u : CustomUser) :
  (existsb (clashes u) (other_rows db u) = true
   /\ save_user db u = Raise IntegrityError)
  \/ (existsb (clashes u) (other_rows db u) = false
      /\ exists u' db',
           save_user db u = Ok (u', db')
           /\ In u' (users db')
           /\ username u' = username u
           /\ institutional_email u' = institutional_email u
           /\ role u' = role u
           /\ access_code u' = access_code u
           /\ code_sent_count u' = code_sent_count u
           /\ is_code_active u' = is_code_active u).
Proof.
  unfold save_user.
  destruct (existsb (clashes u) _) eqn:Hc; [now left | right].
  split; [reflexivity|].
  destruct (user_pk u) as [k|] eqn:Hpk.
  - destruct (existsb (has_pk k) (users db)) eqn:Hex.
    + exists u. eexists. split; [reflexivity|].
      split; [|repeat split]. cbn [set_users users].
      apply existsb_exists in Hex as (r & Hin & Hr).
      apply in_map_iff. exists r. now rewrite Hr.
    + exists u. eexists. split; [reflexivity|].
      split; [|repeat split]. cbn [set_users users].
      apply in_or_app. right. now left.
  - eexists. eexists. split; [reflexivity|].
    split; [|repeat split]. cbn [set_users users].
    apply in_or_app. right. now left.
Qed.

(** C6, as the code has it: a call of [regenerate_code] draws a fresh
    code of 12 characters and leaves the instance with that code,
    [code_sent_count] 0 and [is_code_active] true; when no other row
    holds the same value in a unique column the instance is saved with
    these values and the call returns the new code; otherwise [save]
    raises [IntegrityError], nothing is returned and the database is as
    before. *)
Theorem regenerate_code_spec (self : CustomUser) (db : Store)
  (g : SystemRandom) :
  let code := fst (generate_access_code g) in
  let after := regenerate_code self db g in
  String.length code = 12%nat
  /\ all_chars is_upper_or_digit code = true
  /\ access_code (rg_self after) = code
  /\ code_sent_count (rg_self after) = 0
  /\ is_code_active (rg_self after) = true
  /\ rg_random after = snd (generate_access_code g)
  /\ ((existsb (clashes (with_fresh_code self code))
         (other_rows db (with_fresh_code self code)) = false
       /\ rg_result after = Ok code
       /\ In (rg_self after) (users (rg_db after)))
      \/ (existsb (clashes (with_fresh_code self code))
            (other_rows db (with_fresh_code self code)) = true
          /\ rg_result after = Raise IntegrityError
          /\ rg_db after = db)).
Proof.
  cbv zeta.
  destruct (join_choices_spec is_upper_or_digit (ascii_uppercase ++ digits)
              12 ltac:(discriminate) eq_refl g) as [Hlen Hchars].
  fold (generate_access_code g) in Hlen, Hchars.
  split; [exact Hlen|]. split; [exact Hchars|].
  unfold regenerate_code.
  destruct (generate_access_code g) as [code g'] eqn:Hg. cbn [fst snd].
  fold (with_fresh_code self code).
  destruct (save_user_cases db (with_fresh_code self code))
    as [[Hc Hs] | (Hc & u' & db' & Hs & Hin & _ & _ & _ & Ha & Hn & Hact)];
    rewrite Hs; cbn [rg_self rg_db rg_random rg_result].
  - repeat split; try reflexivity. right. auto.
  - rewrite Ha, Hn, Hact. repeat split; try reflexivity. left. auto.
Qed.

(** C6, counterexample: the code drawn for Carmen is the one Rafael
    holds; [save] raises [IntegrityError], the call returns no code, and
    Carmen's row keeps its old code, its count of 3 and its inactive
    flag. *)
Lemma regenerate_code_can_raise :
  fst (generate_access_code dice) = access_code rafael
  /\ rg_result (regenerate_code carmen campus_taken dice)
     = Raise IntegrityError
  /\ rg_result (regenerate_code carmen campus_taken dice)
     <> Ok (fst (generate_access_code dice))
  /\ users (rg_db (regenerate_code carmen campus_taken dice))
     = [carmen; rafael]
  /\ code_sent_count carmen = 3
  /\ is_code_active carmen = false.
Proof.
  repeat split; try reflexivity.
  vm_compute. discriminate.
Qed.

(** ** Deleting a user *)

Lemma mem_cascaded (db : Store) (uid : Z) (h : TicketHistory) :
  mem (th_ticket h) (cascaded_tickets db uid) = true <-> on_ticket_of db uid h.
Proof.
  unfold mem, cascaded_tickets, on_ticket_of, owned_by. split.
  - intros H. apply existsb_exists in H as (k & Hin & Hk).
    apply Z.eqb_eq in Hk. subst k.
    apply in_map_iff in Hin as (t & Hid & Hin).
    apply filter_In in Hin as [Hin Hown]. apply Z.eqb_eq in Hown.
    now exists t.
  - intros (t & Hin & Hown & Hid). apply existsb_exists.
    exists (ticket_id t). split; [|now apply Z.eqb_eq].
    apply in_map, filter_In. split; [exact Hin | now apply Z.eqb_eq].
Qed.

Lemma null_actor_spec (uid : Z) (h : TicketHistory) :
  th_id (null_actor uid h) = th_id h
  /\ th_ticket (null_actor uid h) = th_ticket h
  /\ action (null_actor uid h) = action h
  /\ comment (null_actor uid h) = comment h
  /\ timestamp (null_actor uid h) = timestamp h
  /\ (th_user h = Some uid -> th_user (null_actor uid h) = None)
  /\ (th_user h <> Some uid -> null_actor uid h = h).
Proof.
  unfold null_actor. destruct (th_user h) as [k|] eqn:Hu.
  - destruct (k =? uid) eqn:E.
    + repeat split; try reflexivity. intros Hne. apply Z.eqb_eq in E.
      congruence.
    + repeat split; try reflexivity; try assumption.
      intros [= ->]. rewrite Z.eqb_refl in E. discriminate.
  - repeat split; try reflexivity; try assumption. discriminate.
Qed.

(** C7, as the code has it: deleting a user deletes exactly the tickets
    the user owns; the history rows of those tickets go with them; every
    other history row stays, unchanged but for its acting user, which
    becomes null where it was the deleted user; no row is added. *)
Theorem delete_user_cascade (db : Store) (uid : Z) :
  (forall t, In t (tickets (delete_user db uid))
             <-> In t (tickets db) /\ ticket_user t <> uid)
  /\ (forall h', In h' (history (delete_user db uid))
                 <-> exists h, In h (history db)
                               /\ ~ on_ticket_of db uid h
                               /\ h' = null_actor uid h)
  /\ (forall h,
        th_id (null_actor uid h) = th_id h
        /\ th_ticket (null_actor uid h) = th_ticket h
        /\ action (null_actor uid h) = action h
        /\ comment (null_actor uid h) = comment h
        /\ timestamp (null_actor uid h) = timestamp h
        /\ (th_user h = Some uid -> th_user (null_actor uid h) = None)
        /\ (th_user h <> Some uid -> null_actor uid h = h)).
Proof.
  split; [|split].
  - intros t. cbn [delete_user tickets]. rewrite filter_In.
    unfold owned_by. rewrite negb_true_iff, Z.eqb_neq. reflexivity.
  - intros h'. cbn [delete_user history]. rewrite in_map_iff. split.
    + intros (h & <- & Hin). apply filter_In in Hin as [Hin Hm].
      exists h. repeat split; try assumption.
      rewrite <- mem_cascaded. apply negb_true_iff in Hm. congruence.
    + intros (h & Hin & Hno & ->). exists h. split; [reflexivity|].
      apply filter_In. split; [exact Hin|].
      apply negb_true_iff. rewrite <- mem_cascaded in Hno.
      now destruct (mem _ _).
  - intros h. apply null_actor_spec.
Qed.

(** C7, counterexample: Ana owns ticket 1, whose audit trail has two rows;
    deleting Ana leaves no history row at all, neither hers nor the one
    written by Luis. *)
Lemma user_deletion_deletes_history :
  In filed_row (history campus_audited)
  /\ In taken_up_row (history campus_audited)
  /\ tickets (delete_user campus_audited 1) = []
  /\ history (delete_user campus_audited 1) = [].
Proof.
  repeat split; try reflexivity; cbn; auto.
Qed.

(** ** The closing timestamp *)

Lemma create_ticket_fresh (db db' : Store)
  (now_init now_save now_touch : datetime) (kw : NewTicket) (t : Ticket) :
  create_ticket db now_init now_save now_touch kw = Ok (t, db') ->
  status t = ABIERTO /\ closed_at t = None /\ created_at t = now_save.
Proof.
  unfold create_ticket.
  destruct (generate_ticket_number db now_init); cbn [bind]; [|discriminate].
  destruct (existsb _ (tickets db)); [discriminate|].
  destruct (negb _); [discriminate|].
  intros [= <- _]. repeat split.
Qed.

Lemma transition_closed_at (t : Ticket) (actor : CustomUser) (ev : Event)
  (now : datetime) (o : Outcome) :
  closed_at_is_set t = rejected_closed_or_archived (status t) ->
  transition t actor ev now = inr o ->
  closed_at_is_set (out_ticket o)
  = rejected_closed_or_archived (status (out_ticket o)).
Proof.
  intros Hinv. unfold transition.
  destruct ev as [|d tm|reason|note|text|]; destruct (status t) eqn:Hst;
    try discriminate.
  - destruct (role actor); [|discriminate]. intros [= <-].
    unfold closed_at_is_set in *. cbn in *. exact Hinv.
  - destruct d, tm; try discriminate. intros [= <-].
    unfold closed_at_is_set in *. cbn in *. exact Hinv.
  - destruct (String.eqb reason ""); [discriminate|]. now intros [= <-].
  - destruct (String.eqb reason ""); [discriminate|]. now intros [= <-].
  - destruct note; [|discriminate]. now intros [= <-].
  - intros [= <-]. cbn. now rewrite Hinv, Hst.
  - destruct (closed_at t) eqn:Hc; [|discriminate].
    destruct (_ <=? _); [|discriminate]. intros [= <-].
    reflexivity.
Qed.

(** The table of section 4.3 taken by itself: in every state a ticket
    reaches through it, and so after each of its transitions,
    [closed_at] is set if and only if the status is rejected, closed or
    archived.  The code that performs the transitions is not among the
    sources; this is a fact about the table. *)
Theorem closed_at_invariant (t : Ticket) :
  reachable t ->
  closed_at_is_set t = rejected_closed_or_archived (status t).
Proof.
  induction 1 as [db now_init now_save now_touch kw t db' Hc
                 | t actor ev now o _ IH Ht].
  - apply create_ticket_fresh in Hc as (Hs & Hc & _).
    unfold closed_at_is_set. now rewrite Hs, Hc.
  - eapply transition_closed_at; eassumption.
Qed.

Lemma turned_down_reachable : reachable turned_down.
Proof.
  change turned_down with (out_ticket (mkOutcome turned_down REJECTED true)).
  apply (reach_step filed luis (Reject "Equipo fuera de garantia")
           (morning 2025 1 14)).
  - eapply (reach_created campus (morning 2025 1 13) (morning 2025 1 13)
              (morning 2025 1 13) printer_jam). reflexivity.
  - reflexivity.
Defined.

Lemma closed_at_invariant_witness :
  closed_at_is_set turned_down
  = rejected_closed_or_archived (status turned_down).
Proof.
  apply (closed_at_invariant turned_down). exact turned_down_reachable.
Defined.

(** The table of section 4.3 against the invariant of section 3: the
    first ticket of 2025 is rejected the morning after it was filed; the
    reject row sets [closed_at], and the status is neither closed nor
    archived. *)
Lemma rejected_ticket_has_closed_at :
  reachable turned_down
  /\ closed_at turned_down = Some (morning 2025 1 14)
  /\ status turned_down = RECHAZADO
  /\ ~ (closed_at_is_set turned_down = true
        <-> closed_or_archived (status turned_down) = true).
Proof.
  split; [exact turned_down_reachable|].
  split; [reflexivity|]. split; [reflexivity|].
  intros [H _]. specialize (H eq_refl). discriminate H.
Qed.

(** * Further properties of the models *)

(** ** Reading a number back *)

Lemma py_split_pieces (sep : ascii) (s : string) :
  Forall (fun piece => all_chars (fun c => negb (Ascii.eqb c sep)) piece = true)
         (py_split sep s).
Proof.
  induction s as [|c r IH]; cbn [py_split]; [repeat constructor|].
  destruct (Ascii.eqb c sep) eqn:E; [constructor; [reflexivity | exact IH]|].
  destruct (py_split sep r) as [|h t]; [repeat constructor; cbn; now rewrite E|].
  apply Forall_cons_iff in IH as [Hh Ht].
  constructor; [|exact Ht]. cbn [all_chars]. now rewrite E, Hh.
Qed.

Lemma last_item_no_sep (sep : ascii) (s : string) :
  all_chars (fun c => negb (Ascii.eqb c sep)) (last_item (py_split sep s))
  = true.
Proof.
  pose proof (py_split_pieces sep s) as Hall.
  pose proof (py_split_nonempty sep s) as Hne.
  unfold last_item. rewrite Forall_forall in Hall. apply Hall.
  destruct (exists_last Hne) as (l & x & ->).
  rewrite last_last. apply in_or_app. right. now left.
Qed.

Lemma all_chars_lstrip (p : ascii -> bool) (s : string) :
  all_chars p s = true -> all_chars p (lstrip s) = true.
Proof.
  induction s as [|c r IH]; intros H; [reflexivity|].
  cbn [lstrip]. destruct (is_space c); [|exact H].
  cbn [all_chars] in H. apply andb_true_iff in H as [_ Hr]. auto.
Qed.

Lemma all_chars_rstrip (p : ascii -> bool) (s : string) :
  all_chars p s = true -> all_chars p (rstrip s) = true.
Proof.
  induction s as [|c r IH]; intros H; [reflexivity|].
  cbn [all_chars] in H. apply andb_true_iff in H as [Hc Hr].
  specialize (IH Hr). cbn [rstrip].
  destruct (rstrip r) as [|c' r'].
  - destruct (is_space c); [reflexivity|]. cbn [all_chars]. now rewrite Hc.
  - cbn [all_chars] in *. now rewrite Hc, IH.
Qed.

Lemma int_digits_nonneg (s : string) :
  forall acc prev v,
    0 <= acc -> int_digits s acc prev = Some v -> 0 <= v.
Proof.
  induction s as [|c r IH]; intros acc prev v Hacc H; cbn [int_digits] in H.
  - destruct prev; [now injection H as <- | discriminate].
  - destruct (is_digit c) eqn:Hc.
    + pose proof (is_digit_val_range c Hc).
      eapply IH; [|exact H]. lia.
    + destruct (Ascii.eqb c "_" && prev); [|discriminate].
      eapply IH; eassumption.
Qed.

(** A literal without a dash is never read as a negative integer. *)
Lemma py_int_no_dash_nonneg (s : string) (k : Z) :
  all_chars (fun c => negb (Ascii.eqb c "-")) s = true ->
  py_int s = Ok k -> 0 <= k.
Proof.
  intros Hs. unfold py_int.
  assert (Hb : all_chars (fun c => negb (Ascii.eqb c "-")) (strip s) = true)
    by now apply all_chars_rstrip, all_chars_lstrip.
  destruct (strip s) as [|c r].
  - cbn [int_digits]. discriminate.
  - cbn [all_chars] in Hb. apply andb_true_iff in Hb as [Hc _].
    apply negb_true_iff in Hc. rewrite Hc.
    destruct (Ascii.eqb c "+").
    + destruct (int_digits r 0 false) as [v|] eqn:E; [|discriminate].
      pose proof (int_digits_nonneg _ _ _ _ (Z.le_refl 0) E) as Hv.
      intros H. injection H as H. destruct v; subst k; lia.
    + destruct (int_digits (String c r) 0 false) as [v|] eqn:E;
        [|discriminate].
      pose proof (int_digits_nonneg _ _ _ _ (Z.le_refl 0) E) as Hv.
      intros H. injection H as H. destruct v; subst k; lia.
Qed.

Lemma tail_of_nonneg (t : Ticket) (k : Z) :
  py_int (tail_of t) = Ok k -> 0 <= k.
Proof. apply py_int_no_dash_nonneg, last_item_no_sep. Qed.

Lemma py_int_raises_value_error (s : string) (e : exn) :
  py_int s = Raise e -> e = ValueError.
Proof.
  unfold py_int.
  destruct (match strip s with
            | "" => (1, strip s)
            | String c r =>
                if Ascii.eqb c "-" then (-1, r)
                else if Ascii.eqb c "+" then (1, r) else (1, strip s)
            end) as [sign ds].
  destruct (int_digits ds 0 false); [discriminate | now intros [= <-]].
Qed.

(** X1: the generator raises nothing but [ValueError]; what it returns is
    a number of the current year whose sequence is at least 1, printed
    with digits only, at least four of them, and read back as the same
    sequence by the parsing of the next call. *)
Theorem generate_ticket_number_result (db : Store) (now : datetime) :
  match generate_ticket_number db now with
  | Ok number =>
      exists n, 1 <= n
                /\ number = ticket_number_format (dt_year now) n
                /\ all_digits (format_04d n) = true
                /\ (4 <= String.length (format_04d n))%nat
                /\ py_int (last_item (py_split "-" number)) = Ok n
  | Raise e => e = ValueError
  end.
Proof.
  assert (Hshape : forall n, 1 <= n ->
            exists n', 1 <= n'
              /\ ticket_number_format (dt_year now) n
                 = ticket_number_format (dt_year now) n'
              /\ all_digits (format_04d n') = true
              /\ (4 <= String.length (format_04d n'))%nat
              /\ py_int (last_item
                           (py_split "-"
                              (ticket_number_format (dt_year now) n)))
                 = Ok n').
  { intros n Hn. exists n. split; [exact Hn|]. split; [reflexivity|].
    split; [apply format_04d_all_digits; lia|].
    split; [rewrite format_04d_length; lia|].
    apply sequence_of_ticket_number. lia. }
  destruct (generate_ticket_number_cases db now)
    as [[_ Hg] | (t & _ & _ & _ & Hg)]; rewrite Hg.
  - apply Hshape. lia.
  - fold (tail_of t). destruct (py_int (tail_of t)) as [k|e] eqn:Hk;
      cbn [bind].
    + apply Hshape. apply tail_of_nonneg in Hk. lia.
    + now apply py_int_raises_value_error in Hk.
Qed.

(** X3: reading back the sequence of a printed number gives its absolute
    value: the sequence itself when it is not negative, and otherwise the
    sequence without its sign, which the split at the dashes drops. *)
Theorem sequence_read_back (year n : Z) :
  py_int (last_item (py_split "-" (ticket_number_format year n)))
  = Ok (Z.abs n).
Proof.
  destruct (Z.lt_ge_cases n 0) as [Hneg | Hpos].
  - unfold ticket_number_format, format_04d.
    apply Z.ltb_lt in Hneg as E. rewrite E.
    destruct (str_nonneg_spec (Z.abs n) (Z.abs_nonneg n)) as (Hd & Hne & Hv).
    set (d := str_nonneg (Z.abs n)) in *.
    assert (Hall : all_digits (zeros (3 - String.length d) ++ d) = true)
      by now rewrite all_digits_append, all_digits_zeros, Hd.
    change ("-" ++ String "-" (zeros (3 - String.length d) ++ d))
      with (String "-" (String "-" (zeros (3 - String.length d) ++ d))).
    replace (year_prefix year
             ++ String "-" (String "-" (zeros (3 - String.length d) ++ d)))
      with ((year_prefix year ++ "-")
            ++ String "-" (zeros (3 - String.length d) ++ d))
      by (rewrite append_assoc_s; reflexivity).
    rewrite last_item_split by exact Hall.
    rewrite py_int_all_digits; [now rewrite digits_val_zeros, Hv | exact Hall|].
    destruct (3 - String.length d)%nat; cbn [zeros append];
      [exact Hne | discriminate].
  - rewrite sequence_of_ticket_number, Z.abs_eq by lia. reflexivity.
Qed.

(** ** A number that cannot be continued *)




(** ** How long a number is *)

Lemma digits_val_scale (s : string) :
  forall acc, all_digits s = true -> 0 <= acc ->
  acc * 10 ^ Z.of_nat (String.length s) <= digits_val s acc.
Proof.
  induction s as [|c r IH]; intros acc Hd Hacc.
  - cbn [digits_val String.length]. change (10 ^ Z.of_nat 0) with 1. lia.
  - cbn [all_digits] in Hd. apply andb_true_iff in Hd as [Hc Hr].
    pose proof (is_digit_val_range c Hc) as Hv.
    cbn [digits_val String.length].
    assert (Hacc' : 0 <= 10 * acc + digit_val c) by lia.
    pose proof (IH _ Hr Hacc') as Hle.
    rewrite Nat2Z.inj_succ, Z.pow_succ_r by lia.
    assert (Hp : 0 < 10 ^ Z.of_nat (String.length r))
      by (apply Z.pow_pos_nonneg; lia).
    nia.
Qed.

Lemma digits_go_leading (f : nat) :
  forall n acc, 0 < n < 2 ^ Z.of_nat (S f) ->
  exists c d, digits_go (S f) n acc = String c (d ++ acc)
              /\ 1 <= digit_val c.
Proof.
  induction f as [|f IH]; intros n acc Hn.
  - change (2 ^ Z.of_nat 1) with 2 in Hn.
    assert (Hq : n / 10 = 0) by (apply Z.div_small; lia).
    assert (Hm : n mod 10 = n) by (apply Z.mod_small; lia).
    exists (digit_char (n mod 10)), "".
    cbn [digits_go]. rewrite Hq. cbn [Z.eqb append].
    split; [reflexivity|].
    destruct (digit_char_ok (n mod 10)) as [_ ->]; lia.
  - assert (Hr : 0 <= n mod 10 < 10) by (apply Z.mod_pos_bound; lia).
    pose proof (Z.div_mod n 10 ltac:(lia)) as Hdm.
    change (digits_go (S (S f)) n acc) with
      (let acc' := String (digit_char (n mod 10)) acc in
       if n / 10 =? 0 then acc' else digits_go (S f) (n / 10) acc').
    cbv zeta. destruct (n / 10 =? 0) eqn:Hq.
    + apply Z.eqb_eq in Hq.
      exists (digit_char (n mod 10)), "". split; [reflexivity|].
      destruct (digit_char_ok (n mod 10) Hr) as [_ ->]. lia.
    + apply Z.eqb_neq in Hq.
      assert (H0 : 0 <= n / 10) by (apply Z.div_pos; lia).
      assert (Hb : 0 < n / 10 < 2 ^ Z.of_nat (S f)).
      { split; [lia|].
        apply Z.div_lt_upper_bound; [lia|].
        rewrite (Nat2Z.inj_succ (S f)), Z.pow_succ_r in Hn by lia. lia. }
      destruct (IH (n / 10) (String (digit_char (n mod 10)) acc) Hb)
        as (c & d & Hgo & Hc).
      exists c, (d ++ String (digit_char (n mod 10)) "").
      rewrite Hgo, append_assoc_s. split; [reflexivity | exact Hc].
Qed.

(** A positive integer is printed without a zero in front: it is at
    least the power of ten of its length less one. *)
Lemma str_nonneg_lower (n : Z) :
  1 <= n -> 10 ^ (Z.of_nat (String.length (str_nonneg n)) - 1) <= n.
Proof.
  intros Hn.
  destruct (str_nonneg_spec n ltac:(lia)) as (Hd & _ & Hv).
  unfold str_nonneg in *.
  destruct (digits_go_leading (Z.to_nat (Z.log2 n)) n "") as (c & d & Hgo & Hc).
  - split; [lia|].
    rewrite Nat2Z.inj_succ, Z2Nat.id by apply Z.log2_nonneg.
    apply Z.log2_spec. lia.
  - rewrite Hgo, append_nil_r_s in *.
    cbn [all_digits] in Hd. apply andb_true_iff in Hd as [Hcd Hdd].
    cbn [digits_val] in Hv. cbn [String.length].
    pose proof (digits_val_scale d (10 * 0 + digit_val c) Hdd ltac:(lia))
      as Hscale.
    rewrite Hv in Hscale.
    replace (Z.of_nat (S (String.length d)) - 1)
      with (Z.of_nat (String.length d)) by lia.
    assert (Hp : 0 < 10 ^ Z.of_nat (String.length d))
      by (apply Z.pow_pos_nonneg; lia).
    nia.
Qed.

Lemma str_nonneg_length_le (n : Z) (k : nat) :
  1 <= n < 10 ^ Z.of_nat k -> (String.length (str_nonneg n) <= k)%nat.
Proof.
  intros Hn. pose proof (str_nonneg_lower n ltac:(lia)) as Hlow.
  destruct (le_lt_dec (String.length (str_nonneg n)) k) as [Hle | Hgt];
    [exact Hle | exfalso].
  assert (Hmono : 10 ^ Z.of_nat k
                  <= 10 ^ (Z.of_nat (String.length (str_nonneg n)) - 1))
    by (apply Z.pow_le_mono_r; lia).
  lia.
Qed.

Lemma str_nonneg_length_ge (n : Z) (k : nat) :
  10 ^ Z.of_nat k <= n -> (k < String.length (str_nonneg n))%nat.
Proof.
  intros Hn.
  assert (Hpos : 0 < 10 ^ Z.of_nat k) by (apply Z.pow_pos_nonneg; lia).
  destruct (str_nonneg_spec n ltac:(lia)) as (Hd & _ & Hv).
  pose proof (digits_val_lt _ 0 Hd ltac:(lia)) as Hlt. rewrite Hv in Hlt.
  destruct (le_lt_dec (String.length (str_nonneg n)) k) as [Hle | Hgt];
    [exfalso | exact Hgt].
  assert (Hmono : 10 ^ Z.of_nat (String.length (str_nonneg n))
                  <= 10 ^ Z.of_nat k)
    by (apply Z.pow_le_mono_r; lia).
  lia.
Qed.

Lemma four_digit_year (y : Z) :
  1000 <= y <= 9999 -> String.length (str_nonneg y) = 4%nat.
Proof.
  intros Hy.
  pose proof (str_nonneg_length_le y 4 ltac:(change (10 ^ Z.of_nat 4) with 10000; lia)).
  pose proof (str_nonneg_length_ge y 3 ltac:(change (10 ^ Z.of_nat 3) with 1000; lia)).
  lia.
Qed.

Lemma ticket_number_length (y n : Z) :
  0 <= y -> 0 <= n ->
  String.length (ticket_number_format y n)
  = (5 + String.length (str_nonneg y)
     + Nat.max 4 (String.length (str_nonneg n)))%nat.
Proof.
  intros Hy Hn. rewrite ticket_number_unfold by exact Hy.
  cbn [append String.length]. rewrite length_append_s.
  cbn [String.length]. rewrite format_04d_length, py_str_int_nonneg by exact Hn.
  lia.
Qed.

(** X4: in a year of four digits a number fits the 20 characters of the
    [ticket_number] column exactly when its sequence is below 10^11. *)
Theorem ticket_number_fits_column (year n : Z) :
  1000 <= year <= 9999 -> 1 <= n ->
  ((String.length (ticket_number_format year n) <= 20)%nat
   <-> n < 10 ^ 11).
Proof.
  intros Hy Hn.
  rewrite ticket_number_length, four_digit_year by lia.
  split.
  - intros Hlen. destruct (Z.lt_ge_cases n (10 ^ 11)) as [Hlt | Hge];
      [exact Hlt | exfalso].
    pose proof (str_nonneg_length_ge n 11 Hge). lia.
  - intros Hlt. pose proof (str_nonneg_length_le n 11 (conj Hn Hlt)). lia.
Qed.

Lemma ticket_number_fits_column_witness :
  (String.length (ticket_number_format 2025 99999999999) <= 20)%nat
  <-> 99999999999 < 10 ^ 11.
Proof.
  apply (ticket_number_fits_column 2025 99999999999); lia.
Defined.

(** ** Years apart *)

Lemma other_year_not_matched (y y' n : Z) :
  1000 <= y <= 9999 -> 1000 <= y' <= 9999 -> y <> y' ->
  startswith (year_prefix y) (ticket_number_format y' n) = false.
Proof.
  intros Hy Hy' Hne.
  destruct (Z.lt_ge_cases y' y) as [Hlt | Hge];
    [apply earlier_year_not_matched; lia|].
  destruct (startswith _ _) eqn:E; [exfalso | reflexivity].
  rewrite ticket_number_unfold in E by lia.
  unfold year_prefix in E. rewrite py_str_int_nonneg in E by lia.
  cbn [append startswith] in E.
  rewrite !Ascii.eqb_refl in E. cbn [andb] in E.
  destruct (str_nonneg_spec y ltac:(lia)) as (Dy & _ & _).
  destruct (startswith_digits _ _ Dy E) as [r Hr]. symmetry in Hr.
  destruct (digits_before_separator _ _ _ _ "-" Dy eq_refl Hr) as [m Hm].
  assert (Hlen : String.length (str_nonneg y') = String.length (str_nonneg y ++ m))
    by now rewrite Hm.
  rewrite length_append_s, !four_digit_year in Hlen by lia.
  destruct m; [|cbn [String.length] in Hlen; lia].
  rewrite append_nil_r_s in Hm. apply str_nonneg_inj in Hm; lia.
Qed.

Lemma create_ticket_other_year (y y' : Z) (db db' : Store)
  (now_init now_save now_touch : datetime) (kw : NewTicket) (t : Ticket) :
  1000 <= y <= 9999 -> 1000 <= y' <= 9999 -> y <> y' ->
  dt_year now_init = y' ->
  create_ticket db now_init now_save now_touch kw = Ok (t, db') ->
  filter (of_year y) (tickets db') = filter (of_year y) (tickets db).
Proof.
  intros Hy Hy' Hne Hyr Hc. unfold create_ticket in Hc.
  destruct (generate_ticket_number db now_init) as [number|e] eqn:Hg;
    cbn [bind] in Hc; [|discriminate].
  destruct (existsb _ (tickets db)); [discriminate|].
  destruct (negb _); [discriminate|].
  injection Hc as <- <-. cbn [tickets].
  apply generate_ticket_number_format in Hg as [n ->]. rewrite Hyr.
  rewrite filter_app. cbn [filter]. unfold of_year at 2. cbn [ticket_number].
  rewrite other_year_not_matched by assumption. apply app_nil_r.
Qed.

(** X5: between two different years of four digits the numbering is
    separate: whatever is created in one year, the tickets the generator
    sees for the other year, and so the number it returns there, stay the
    same. *)
Theorem years_numbered_apart (y y' : Z) (db : Store) (reqs : list Creation) :
  1000 <= y <= 9999 -> 1000 <= y' <= 9999 -> y <> y' ->
  Forall (fun r => creation_year r = y') reqs ->
  filter (of_year y) (tickets (create_tickets db reqs))
  = filter (of_year y) (tickets db)
  /\ forall now, dt_year now = y ->
       generate_ticket_number (create_tickets db reqs) now
       = generate_ticket_number db now.
Proof.
  intros Hy Hy' Hne Hall.
  assert (Hf : filter (of_year y) (tickets (create_tickets db reqs))
               = filter (of_year y) (tickets db)).
  { revert db.
    induction reqs as [|[[[now_init now_save] now_touch] kw] rest IH];
      intros db; [reflexivity|].
    apply Forall_cons_iff in Hall as [Hyr Hrest].
    unfold creation_year in Hyr. cbn [fst] in Hyr.
    cbn [create_tickets].
    destruct (create_ticket db now_init now_save now_touch kw)
      as [[t db']|e] eqn:Hc; [|now apply IH].
    rewrite (IH Hrest db').
    eapply create_ticket_other_year; eassumption. }
  split; [exact Hf|].
  intros now Hnow. unfold generate_ticket_number. cbv zeta. rewrite Hnow.
  change (fun t => startswith (year_prefix y) (ticket_number t))
    with (of_year y).
  now rewrite Hf.
Qed.

Lemma years_numbered_apart_witness :
  filter (of_year 2026) (tickets (create_tickets campus january))
  = filter (of_year 2026) (tickets campus)
  /\ forall now, dt_year now = 2026 ->
       generate_ticket_number (create_tickets campus january) now
       = generate_ticket_number campus now.
Proof.
  apply (years_numbered_apart 2026 2025 campus january); try lia.
  repeat constructor.
Defined.

(** ** Short descriptions, measured *)

Lemma slice_to_append (a b : string) :
  slice_to (String.length a) (a ++ b) = a.
Proof.
  induction a as [|c a IH]; cbn [String.length append slice_to].
  - now destruct b.
  - now rewrite IH.
Qed.

(** X6: the short description has the length of the description up to 50
    characters and 53 characters beyond; it begins with the same 50
    characters as the description; and it is longer than the description
    exactly when the description has 51 or 52 characters. *)
Theorem short_description_length (self : Ticket) :
  String.length (get_short_description self)
  = (if (50 <? String.length (description self))%nat
     then 53%nat else String.length (description self))
  /\ slice_to 50 (get_short_description self)
     = slice_to 50 (description self)
  /\ ((String.length (description self)
       < String.length (get_short_description self))%nat
      <-> String.length (description self) = 51%nat
          \/ String.length (description self) = 52%nat).
Proof.
  unfold get_short_description.
  destruct (50 <? String.length (description self))%nat eqn:E.
  - apply Nat.ltb_lt in E.
    destruct (slice_to_prefix 50 (description self) ltac:(lia)) as [Hl _].
    rewrite length_append_s, Hl. cbn [String.length].
    split; [reflexivity|]. split; [|lia].
    rewrite <- Hl at 1. apply slice_to_append.
  - apply Nat.ltb_ge in E. split; [reflexivity|]. split; [reflexivity | lia].
Qed.

(** ** Every code can come out *)

Lemma alphabet_index (c : ascii) :
  is_upper_or_digit c = true ->
  (index_in c (ascii_uppercase ++ digits) < 36)%nat
  /\ String.get (index_in c (ascii_uppercase ++ digits))
       (ascii_uppercase ++ digits) = Some c.
Proof.
  destruct c as [[] [] [] [] [] [] [] []]; intros H;
    solve [discriminate H | split; [vm_compute; lia | reflexivity]].
Qed.

Lemma join_choices_follows (code : string) :
  forall (e : nat -> N) (p : nat),
    all_chars is_upper_or_digit code = true ->
    (forall i c, String.get i code = Some c ->
                 e (p + i)%nat
                 = N.of_nat (index_in c (ascii_uppercase ++ digits))) ->
    fst (join_choices (String.length code) (ascii_uppercase ++ digits)
           (mkRandom e p))
    = code.
Proof.
  induction code as [|c r IH]; intros e p Hall He; [reflexivity|].
  cbn [all_chars] in Hall. apply andb_true_iff in Hall as [Hc Hr].
  destruct (alphabet_index c Hc) as [Hlt Hget].
  cbn [String.length join_choices].
  unfold secrets_choice at 1, randbelow. cbn [entropy cursor].
  specialize (He O c eq_refl) as He0. rewrite Nat.add_0_r in He0.
  rewrite He0.
  change (N.of_nat (String.length (ascii_uppercase ++ digits))) with 36%N.
  rewrite N.mod_small by lia. rewrite Nat2N.id, Hget.
  specialize (IH e (S p) Hr).
  destruct (join_choices (String.length r) (ascii_uppercase ++ digits)
              (mkRandom e (S p))) as [s g2] eqn:Hj.
  cbn [fst] in *. f_equal. apply IH.
  intros i c' Hi. rewrite <- (He (S i) c' Hi). f_equal. lia.
Qed.

(** X7: no code is excluded: for every string of 12 upper-case letters
    and digits there is a state of the random source from which
    [generate_access_code] returns that string. *)
Theorem every_access_code_possible (code : string) :
  String.length code = 12%nat ->
  all_chars is_upper_or_digit code = true ->
  fst (generate_access_code (source_of (ascii_uppercase ++ digits) code))
  = code.
Proof.
  intros Hlen Hall. unfold generate_access_code, source_of.
  rewrite <- Hlen. apply join_choices_follows; [exact Hall|].
  intros i c Hi. cbn [Nat.add]. now rewrite Hi.
Qed.

Lemma every_access_code_possible_witness :
  fst (generate_access_code
         (source_of (ascii_uppercase ++ digits) "Q7ZK2M9XB4TD"))
  = "Q7ZK2M9XB4TD".
Proof.
  apply (every_access_code_possible "Q7ZK2M9XB4TD"); reflexivity.
Defined.

(** ** Deletion and the foreign keys *)

Lemma user_exists_after_delete (db : Store) (uid k : Z) :
  user_exists db k -> k <> uid -> user_exists (delete_user db uid) k.
Proof.
  unfold user_exists. intros H Hne. cbn [delete_user users].
  apply existsb_exists in H as (r & Hin & Hr).
  apply existsb_exists. exists r. split; [|exact Hr].
  apply filter_In. split; [exact Hin|].
  unfold has_pk in *. destruct (user_pk r) as [j|]; [|discriminate].
  apply Z.eqb_eq in Hr. subst j. apply negb_true_iff, Z.eqb_neq. exact Hne.
Qed.

Lemma ticket_exists_after_delete (db : Store) (uid k : Z) :
  ticket_exists db k -> mem k (cascaded_tickets db uid) = false ->
  ticket_exists (delete_user db uid) k.
Proof.
  unfold ticket_exists. intros H Hm. cbn [delete_user tickets].
  apply existsb_exists in H as (t & Hin & Ht). apply Z.eqb_eq in Ht.
  apply existsb_exists. exists t. split; [|now apply Z.eqb_eq].
  apply filter_In. split; [exact Hin|].
  destruct (owned_by uid t) eqn:Ho; [exfalso | reflexivity].
  assert (mem k (cascaded_tickets db uid) = true); [|congruence].
  unfold mem, cascaded_tickets. apply existsb_exists.
  exists (ticket_id t). split; [|now apply Z.eqb_eq].
  apply in_map, filter_In. now split.
Qed.

(** X8: deleting a user keeps every foreign key of the store pointing to
    a row: no ticket, attachment, history row or notification is left
    behind that refers to the deleted user or to one of the deleted
    tickets. *)
Theorem delete_user_keeps_references (db : Store) (uid : Z) :
  referentially_intact db -> referentially_intact (delete_user db uid).
Proof.
  intros (Ht & Ha & Hh & Hn). unfold referentially_intact.
  rewrite !Forall_forall in *. repeat split.
  - intros t Hin. cbn [delete_user tickets] in Hin.
    apply filter_In in Hin as [Hin Ho].
    apply user_exists_after_delete; [now apply Ht|].
    unfold owned_by in Ho. apply negb_true_iff, Z.eqb_neq in Ho. exact Ho.
  - intros a Hin. cbn [delete_user attachments] in Hin.
    apply filter_In in Hin as [Hin Hm]. apply negb_true_iff in Hm.
    apply ticket_exists_after_delete; [now apply Ha | exact Hm].
  - cbn [delete_user history] in H.
    apply in_map_iff in H as (h & <- & Hin).
    apply filter_In in Hin as [Hin Hm]. apply negb_true_iff in Hm.
    destruct (null_actor_spec uid h) as (_ & -> & _).
    apply ticket_exists_after_delete; [now apply Hh | exact Hm].
  - cbn [delete_user history] in H.
    apply in_map_iff in H as (h & <- & Hin).
    apply filter_In in Hin as [Hin _].
    destruct (Hh h Hin) as [_ Hu]. unfold null_actor.
    destruct (th_user h) as [k|] eqn:Ek; [|now rewrite Ek].
    destruct (k =? uid) eqn:E; [exact I|].
    rewrite Ek. apply Z.eqb_neq in E.
    now apply user_exists_after_delete.
  - cbn [delete_user notifications] in H.
    apply filter_In in H as [Hin Hc].
    apply negb_true_iff, orb_false_iff in Hc as [Hc _].
    apply Z.eqb_neq in Hc.
    apply user_exists_after_delete; [now apply Hn | exact Hc].
  - cbn [delete_user notifications] in H.
    apply filter_In in H as [Hin Hc].
    apply negb_true_iff, orb_false_iff in Hc as [_ Hc].
    destruct (Hn x Hin) as [_ Hk].
    destruct (nt_ticket x) as [k|]; [|exact I].
    now apply ticket_exists_after_delete.
Qed.

Lemma delete_user_keeps_references_witness :
  referentially_intact (delete_user campus_audited 1).
Proof.
  apply (delete_user_keeps_references campus_audited 1).
  repeat split; repeat constructor.
Defined.

(** X9: besides tickets and history, deleting a user removes the row of
    that user and no other; the attachments of the user's tickets and no
    others; and the notifications addressed to the user or attached to
    one of the user's tickets, and no others.  What stays is unchanged,
    and the AUTOINCREMENT counters do not move. *)
Theorem delete_user_other_tables (db : Store) (uid : Z) :
  (forall u, In u (users (delete_user db uid))
             <-> In u (users db) /\ user_pk u <> Some uid)
  /\ (forall a, In a (attachments (delete_user db uid))
                <-> In a (attachments db)
                    /\ ~ (exists t, In t (tickets db) /\ ticket_user t = uid
                                    /\ ticket_id t = att_ticket a))
  /\ (forall n, In n (notifications (delete_user db uid))
                <-> In n (notifications db)
                    /\ nt_user n <> uid
                    /\ ~ (exists t, In t (tickets db) /\ ticket_user t = uid
                                    /\ nt_ticket n = Some (ticket_id t)))
  /\ user_seq (delete_user db uid) = user_seq db
  /\ ticket_seq (delete_user db uid) = ticket_seq db.
Proof.
  assert (Hmem : forall k,
            mem k (cascaded_tickets db uid) = true
            <-> exists t, In t (tickets db) /\ ticket_user t = uid
                          /\ ticket_id t = k).
  { intros k. unfold mem, cascaded_tickets, owned_by. split.
    - intros H. apply existsb_exists in H as (j & Hin & Hj).
      apply Z.eqb_eq in Hj. subst j.
      apply in_map_iff in Hin as (t & Hid & Hin).
      apply filter_In in Hin as [Hin Ho]. apply Z.eqb_eq in Ho. eauto.
    - intros (t & Hin & Ho & Hid). apply existsb_exists.
      exists (ticket_id t). split; [|now apply Z.eqb_eq].
      apply in_map, filter_In. split; [exact Hin | now apply Z.eqb_eq]. }
  repeat split; try (cbn [delete_user users attachments notifications] in *).
  - now apply filter_In in H.
  - apply filter_In in H as [_ H]. apply negb_true_iff in H.
    unfold has_pk in H. intros E. rewrite E, Z.eqb_refl in H. discriminate.
  - intros [Hin Hne]. apply filter_In. split; [exact Hin|].
    apply negb_true_iff. unfold has_pk.
    destruct (user_pk u) as [j|]; [|reflexivity].
    apply Z.eqb_neq. congruence.
  - now apply filter_In in H.
  - apply filter_In in H as [_ H]. apply negb_true_iff in H.
    intros Hex. apply Hmem in Hex. congruence.
  - intros [Hin Hno]. apply filter_In. split; [exact Hin|].
    apply negb_true_iff. destruct (mem _ _) eqn:E; [|reflexivity].
    exfalso. apply Hno. now apply Hmem.
  - now apply filter_In in H.
  - apply filter_In in H as [_ H].
    apply negb_true_iff, orb_false_iff in H as [H _].
    now apply Z.eqb_neq in H.
  - apply filter_In in H as [_ H].
    apply negb_true_iff, orb_false_iff in H as [_ H].
    intros (t & Hin & Ho & Hk). rewrite Hk in H.
    assert (mem (ticket_id t) (cascaded_tickets db uid) = true);
      [apply Hmem; eauto | congruence].
  - intros (Hin & Hne & Hno). apply filter_In. split; [exact Hin|].
    apply negb_true_iff, orb_false_iff. split; [now apply Z.eqb_neq|].
    destruct (nt_ticket n) as [k|] eqn:Ek; [|reflexivity].
    destruct (mem k (cascaded_tickets db uid)) eqn:E; [|reflexivity].
    exfalso. apply Hmem in E as (t & Ht & Ho & Hid).
    apply Hno. exists t. subst k. auto.
Qed.

Lemma filter_comm {A : Type} (p q : A -> bool) (l : list A) :
  filter p (filter q l) = filter q (filter p l).
Proof.
  induction l as [|x l IH]; [reflexivity|].
  cbn [filter]. destruct (q x) eqn:Hq, (p x) eqn:Hp; cbn [filter];
    rewrite ?Hq, ?Hp, IH; reflexivity.
Qed.

Lemma filter_map_comm {A : Type} (p : A -> bool) (f : A -> A) (l : list A) :
  (forall x, p (f x) = p x) -> filter p (map f l) = map f (filter p l).
Proof.
  intros Hp. induction l as [|x l IH]; [reflexivity|].
  cbn [map filter]. rewrite Hp. destruct (p x); cbn [map]; now rewrite IH.
Qed.

Lemma filter_all {A : Type} (p : A -> bool) (l : list A) :
  (forall x, In x l -> p x = true) -> filter p l = l.
Proof.
  induction l as [|x l IH]; intros H; [reflexivity|].
  cbn [filter]. rewrite (H x (or_introl eq_refl)). f_equal.
  apply IH. intros y Hy. apply H. now right.
Qed.

Lemma null_actor_comm (a b : Z) (h : TicketHistory) :
  null_actor a (null_actor b h) = null_actor b (null_actor a h).
Proof.
  unfold null_actor. destruct (th_user h) as [k|] eqn:Ek.
  - destruct (k =? b) eqn:Eb, (k =? a) eqn:Ea; cbn [th_user];
      rewrite ?Ek, ?Ea, ?Eb; reflexivity.
  - now rewrite Ek.
Qed.

Lemma null_actor_again (a : Z) (h : TicketHistory) :
  null_actor a (null_actor a h) = null_actor a h.
Proof.
  unfold null_actor. destruct (th_user h) as [k|] eqn:Ek.
  - destruct (k =? a) eqn:E; cbn [th_user]; [reflexivity|].
    now rewrite Ek, E.
  - now rewrite Ek.
Qed.

Lemma null_actor_ticket (a : Z) (h : TicketHistory) :
  th_ticket (null_actor a h) = th_ticket h.
Proof. now destruct (null_actor_spec a h) as (_ & -> & _). Qed.

Lemma cascaded_after_other (db : Store) (a b : Z) :
  a <> b ->
  cascaded_tickets (delete_user db a) b = cascaded_tickets db b.
Proof.
  intros Hne. unfold cascaded_tickets. cbn [delete_user tickets].
  rewrite filter_comm.
  rewrite (filter_all _ (filter (owned_by b) (tickets db))); [reflexivity|].
  intros t Hin. apply filter_In in Hin as [_ Ho].
  unfold owned_by in *. apply Z.eqb_eq in Ho.
  apply negb_true_iff, Z.eqb_neq. congruence.
Qed.

Lemma delete_user_swap (db : Store) (a b : Z) :
  delete_user (delete_user db a) b = delete_user (delete_user db b) a.
Proof.
  destruct (Z.eq_dec a b) as [-> | Hne]; [reflexivity|].
  unfold delete_user at 1 3.
  rewrite !cascaded_after_other by congruence.
  cbn [delete_user users tickets attachments history notifications
       user_seq ticket_seq].
  f_equal.
  - apply filter_comm.
  - apply filter_comm.
  - apply filter_comm.
  - rewrite !filter_map_comm
      by (intros h; now rewrite null_actor_ticket).
    rewrite !map_map, filter_comm.
    apply map_ext. intros h. apply null_actor_comm.
  - apply filter_comm.
Qed.

Lemma delete_user_again (db : Store) (uid : Z) :
  delete_user (delete_user db uid) uid = delete_user db uid.
Proof.
  assert (Hgone : cascaded_tickets (delete_user db uid) uid = []).
  { unfold cascaded_tickets. cbn [delete_user tickets].
    rewrite (forall_filter_nil (owned_by uid)); [reflexivity|].
    apply Forall_forall. intros t Hin. apply filter_In in Hin as [_ Ho].
    now apply negb_true_iff in Ho. }
  unfold delete_user at 1. rewrite Hgone.
  cbn [delete_user users tickets attachments history notifications
       user_seq ticket_seq mem existsb negb].
  unfold delete_user. f_equal.
  - apply filter_all. intros u Hin. now apply filter_In in Hin.
  - apply filter_all. intros t Hin. now apply filter_In in Hin.
  - now apply filter_all.
  - rewrite filter_all by reflexivity. rewrite map_map.
    apply map_ext. intros h. apply null_actor_again.
  - apply filter_all. intros n Hin. apply filter_In in Hin as [_ Hc].
    apply negb_true_iff, orb_false_iff in Hc as [Hc _].
    rewrite Hc. now destruct (nt_ticket n).
Qed.

(** X10: user deletions can be made in either order: deleting two users
    one after the other leaves the same store whichever goes first, and
    deleting the same user a second time changes nothing. *)
Theorem delete_user_order (db : Store) (a b : Z) :
  delete_user (delete_user db a) b = delete_user (delete_user db b) a
  /\ delete_user (delete_user db a) a = delete_user db a.
Proof. split; [apply delete_user_swap | apply delete_user_again]. Qed.

(** ** Deleting a ticket *)

Lemma ticket_exists_after_delete_ticket (db : Store) (tid k : Z) :
  ticket_exists db k -> k <> tid -> ticket_exists (delete_ticket db tid) k.
Proof.
  unfold ticket_exists. intros H Hne. cbn [delete_ticket tickets].
  apply existsb_exists in H as (t & Hin & Ht). apply Z.eqb_eq in Ht.
  apply existsb_exists. exists t. split; [|now apply Z.eqb_eq].
  apply filter_In. split; [exact Hin|].
  apply negb_true_iff, Z.eqb_neq. congruence.
Qed.

(** X11: deleting a ticket removes the tickets with its primary key and
    the attachments, history rows and notifications that point to it;
    every other row stays as it is, no user is touched, and every
    foreign key of the store still points to a row. *)
Theorem delete_ticket_cascade (db : Store) (tid : Z) :
  users (delete_ticket db tid) = users db
  /\ (forall t, In t (tickets (delete_ticket db tid))
                <-> In t (tickets db) /\ ticket_id t <> tid)
  /\ (forall a, In a (attachments (delete_ticket db tid))
                <-> In a (attachments db) /\ att_ticket a <> tid)
  /\ (forall h, In h (history (delete_ticket db tid))
                <-> In h (history db) /\ th_ticket h <> tid)
  /\ (forall n, In n (notifications (delete_ticket db tid))
                <-> In n (notifications db) /\ nt_ticket n <> Some tid)
  /\ (referentially_intact db -> referentially_intact (delete_ticket db tid)).
Proof.
  assert (Hnt : forall n,
            negb match nt_ticket n with
                 | Some k => k =? tid
                 | None => false
                 end = true <-> nt_ticket n <> Some tid).
  { intros n. destruct (nt_ticket n) as [k|]; cbn [negb].
    - rewrite negb_true_iff, Z.eqb_neq. split; congruence.
    - split; [discriminate | reflexivity]. }
  split; [reflexivity|].
  split; [intros t; cbn [delete_ticket tickets];
          now rewrite filter_In, negb_true_iff, Z.eqb_neq|].
  split; [intros a; cbn [delete_ticket attachments];
          now rewrite filter_In, negb_true_iff, Z.eqb_neq|].
  split; [intros h; cbn [delete_ticket history];
          now rewrite filter_In, negb_true_iff, Z.eqb_neq|].
  split; [intros n; cbn [delete_ticket notifications];
          now rewrite filter_In, Hnt|].
  intros (Ht & Ha & Hh & Hn). unfold referentially_intact.
  rewrite !Forall_forall in *.
  split; [|split; [|split]].
  - intros t Hin. cbn [delete_ticket tickets] in Hin.
    apply filter_In in Hin as [Hin _]. exact (Ht t Hin).
  - intros a Hin. cbn [delete_ticket attachments] in Hin.
    apply filter_In in Hin as [Hin Hne].
    apply negb_true_iff, Z.eqb_neq in Hne.
    apply ticket_exists_after_delete_ticket; [now apply Ha | exact Hne].
  - intros h Hin. cbn [delete_ticket history] in Hin.
    apply filter_In in Hin as [Hin Hne].
    apply negb_true_iff, Z.eqb_neq in Hne.
    destruct (Hh h Hin) as [Hk Hu]. split; [|exact Hu].
    now apply ticket_exists_after_delete_ticket.
  - intros n Hin. cbn [delete_ticket notifications] in Hin.
    apply filter_In in Hin as [Hin Hne]. apply Hnt in Hne.
    destruct (Hn n Hin) as [Hu Hk]. split; [exact Hu|].
    destruct (nt_ticket n) as [k|]; [|exact I].
    apply ticket_exists_after_delete_ticket; [exact Hk | congruence].
Qed.

(** X12: a ticket number is not kept for a deleted ticket: when the
    latest ticket of the year, the one with the highest number, is
    deleted, the generator returns that very number again. *)
Theorem deleted_number_is_reissued (year : Z) (k : nat) (db : Store)
  (earlier : list Ticket) (t : Ticket) (now : datetime) :
  filter (of_year year) (tickets db) = (earlier ++ [t])%list ->
  map ticket_number earlier = map (ticket_number_format year) (Zseq 1 k) ->
  ticket_number t = ticket_number_format year (1 + Z.of_nat k) ->
  in_creation_order earlier ->
  Forall (fun t' => ticket_id t' <> ticket_id t) earlier ->
  dt_year now = year ->
  generate_ticket_number (delete_ticket db (ticket_id t)) now
  = Ok (ticket_number t).
Proof.
  intros Hsplit Hnums Hlast Hord Hids Hy.
  assert (Hf : filter (of_year year)
                 (tickets (delete_ticket db (ticket_id t)))
               = earlier).
  { cbn [delete_ticket tickets]. rewrite filter_comm, Hsplit, filter_app.
    cbn [filter]. rewrite Z.eqb_refl. cbn [negb]. rewrite app_nil_r.
    apply filter_all. intros t' Hin. rewrite Forall_forall in Hids.
    apply negb_true_iff, Z.eqb_neq. now apply Hids. }
  rewrite Hlast.
  apply generate_ticket_number_next; [|now rewrite Hf | exact Hy].
  unfold year_numbers. now rewrite Hf.
Qed.

Lemma deleted_number_is_reissued_witness :
  ticket_number last_of_january = "TCK-2025-0003"
  /\ generate_ticket_number
       (delete_ticket campus_2025 (ticket_id last_of_january))
       (morning 2025 2 3)
     = Ok (ticket_number last_of_january).
Proof.
  split; [reflexivity|].
  apply (deleted_number_is_reissued 2025 2 campus_2025 early_january
           last_of_january (morning 2025 2 3)); try reflexivity.
  - repeat constructor; vm_compute; reflexivity.
  - repeat constructor; vm_compute; discriminate.
Defined.

(** ** What a creation leaves *)

Lemma ticket_exists_more (db : Store) (extra : list Ticket) (k : Z) :
  existsb (fun t => ticket_id t =? k) (tickets db) = true ->
  existsb (fun t => ticket_id t =? k) (tickets db ++ extra) = true.
Proof. intros H. rewrite existsb_app, H. reflexivity. Qed.

(** X13: a successful creation appends one ticket and touches no other
    table; the ticket is open, not closed, stamped in [created_at] with
    the clock reading of [auto_now_add] and in [updated_at] with the
    later reading of [auto_now], owned by a user of the store, and its
    number is borne by no earlier ticket; every foreign key of the store
    still points to a row. *)
Theorem create_ticket_effect (db db' : Store)
  (now_init now_save now_touch : datetime) (kw : NewTicket) (t : Ticket) :
  create_ticket db now_init now_save now_touch kw = Ok (t, db') ->
  tickets db' = (tickets db ++ [t])%list
  /\ users db' = users db
  /\ attachments db' = attachments db
  /\ history db' = history db
  /\ notifications db' = notifications db
  /\ status t = ABIERTO
  /\ closed_at t = None
  /\ created_at t = now_save
  /\ updated_at t = now_touch
  /\ ticket_user t = new_user kw
  /\ user_exists db (new_user kw)
  /\ ~ In (ticket_number t) (map ticket_number (tickets db))
  /\ (referentially_intact db -> referentially_intact db').
Proof.
  unfold create_ticket.
  destruct (generate_ticket_number db now_init) as [number|e];
    cbn [bind]; [|discriminate].
  destruct (existsb _ (tickets db)) eqn:Hdup; [discriminate|].
  destruct (existsb (has_pk (new_user kw)) (users db)) eqn:Hu;
    cbn [negb]; [|discriminate].
  intros [= <- <-]. cbn [tickets users attachments history notifications
                         status closed_at created_at updated_at ticket_user
                         ticket_number].
  repeat (split; [reflexivity|]).
  split; [exact Hu|].
  split; [now apply existsb_number_false|].
  intros (Ht & Ha & Hh & Hn). unfold referentially_intact, user_exists,
    ticket_exists in *.
  cbn [tickets users attachments history notifications].
  split; [|split; [|split]].
  - apply Forall_app. split; [exact Ht|].
    constructor; [exact Hu | constructor].
  - eapply Forall_impl; [|exact Ha]. cbv beta. intros a H.
    now apply ticket_exists_more.
  - eapply Forall_impl; [|exact Hh]. cbv beta. intros h [H1 H2].
    split; [now apply ticket_exists_more | exact H2].
  - eapply Forall_impl; [|exact Hn]. cbv beta. intros n [H1 H2].
    split; [exact H1|]. destruct (nt_ticket n); [|exact I].
    now apply ticket_exists_more.
Qed.

Lemma create_ticket_effect_witness :
  exists t db',
    create_ticket campus (morning 2025 1 13) (morning 2025 1 13)
      (just_after 2025 1 13) printer_jam
    = Ok (t, db')
    /\ tickets db' = (tickets campus ++ [t])%list
    /\ users db' = users campus
    /\ attachments db' = attachments campus
    /\ history db' = history campus
    /\ notifications db' = notifications campus
    /\ status t = ABIERTO
    /\ closed_at t = None
    /\ created_at t = morning 2025 1 13
    /\ updated_at t = just_after 2025 1 13
    /\ ticket_user t = new_user printer_jam
    /\ user_exists campus (new_user printer_jam)
    /\ ~ In (ticket_number t) (map ticket_number (tickets campus))
    /\ (referentially_intact campus -> referentially_intact db').
Proof.
  eexists. eexists. split; [reflexivity|].
  apply (create_ticket_effect campus _ (morning 2025 1 13)
           (morning 2025 1 13) (just_after 2025 1 13) printer_jam).
  reflexivity.
Defined.

(** ** Access codes stay distinct *)

Lemma NoDup_snoc {A : Type} (l : list A) (x : A) :
  NoDup l -> ~ In x l -> NoDup (l ++ [x]).
Proof.
  intros Hnd Hx. apply NoDup_rev in Hnd.
  rewrite <- (rev_involutive (l ++ [x])). apply NoDup_rev.
  rewrite rev_app_distr. cbn [rev app]. constructor; [|exact Hnd].
  now rewrite <- in_rev.
Qed.

(** Replacing the row selected by its key by [u], which has the same
    key, keeps a column free of repetitions when no other row holds the
    value of [u]. *)
Lemma NoDup_replace {A B C : Type} (f : A -> B) (g : A -> C)
  (sel : A -> bool) (key : C) (u : A) (l : list A) :
  (forall r, sel r = true <-> g r = key) ->
  NoDup (map g l) -> NoDup (map f l) ->
  (forall r, In r l -> sel r = false -> f r <> f u) ->
  NoDup (map f (map (fun r => if sel r then u else r) l)).
Proof.
  intros Hsel. induction l as [|r l IH]; intros Hg Hf Hother; [constructor|].
  cbn [map] in *. apply NoDup_cons_iff in Hg as [Hgr Hg].
  apply NoDup_cons_iff in Hf as [Hfr Hf].
  assert (Hin : forall y,
            In y (map f (map (fun r => if sel r then u else r) l)) ->
            y = f u \/ In y (map f l)).
  { intros y Hy. apply in_map_iff in Hy as (x & <- & Hx).
    apply in_map_iff in Hx as (x0 & <- & Hx0).
    destruct (sel x0); [now left | right; now apply in_map]. }
  destruct (sel r) eqn:Hr.
  - assert (Hrest : map (fun r => if sel r then u else r) l = l).
    { rewrite <- (map_id l) at 2. apply map_ext_in. intros x Hx.
      destruct (sel x) eqn:Hx'; [exfalso | reflexivity].
      apply Hsel in Hr, Hx'. apply Hgr. rewrite Hr, <- Hx'.
      now apply in_map. }
    rewrite Hrest. constructor; [|exact Hf].
    intros Hu. apply in_map_iff in Hu as (x & Hfx & Hx).
    assert (Hx' : sel x = false).
    { destruct (sel x) eqn:E; [exfalso | reflexivity].
      apply Hsel in Hr, E. apply Hgr. rewrite Hr, <- E. now apply in_map. }
    apply (Hother x (or_intror Hx) Hx'). exact Hfx.
  - constructor.
    + intros Hy. apply Hin in Hy as [Hy | Hy]; [|contradiction].
      apply (Hother r (or_introl eq_refl) Hr). exact Hy.
    + apply IH; try assumption. intros x Hx. apply Hother. now right.
Qed.

Lemma map_replace_same {A B : Type} (g : A -> B) (sel : A -> bool) (u : A)
  (l : list A) :
  (forall r, sel r = true -> g r = g u) ->
  map g (map (fun r => if sel r then u else r) l) = map g l.
Proof.
  intros H. rewrite map_map. apply map_ext. intros r.
  destruct (sel r) eqn:E; [symmetry; now apply H | reflexivity].
Qed.

Lemma has_pk_iff (k : Z) (r : CustomUser) :
  has_pk k r = true <-> user_pk r = Some k.
Proof.
  unfold has_pk. destruct (user_pk r) as [j|].
  - rewrite Z.eqb_eq. split; congruence.
  - split; discriminate.
Qed.

Lemma no_clash (u : CustomUser) (l : list CustomUser) :
  existsb (clashes u) l = false ->
  forall r, In r l ->
    username r <> username u
    /\ institutional_email r <> institutional_email u
    /\ access_code r <> access_code u.
Proof.
  intros H r Hin.
  assert (Hr : clashes u r = false).
  { destruct (clashes u r) eqn:E; [|reflexivity].
    assert (existsb (clashes u) l = true)
      by (apply existsb_exists; eauto). congruence. }
  unfold clashes in Hr. apply orb_false_iff in Hr as [Hr H3].
  apply orb_false_iff in Hr as [H1 H2].
  rewrite String.eqb_neq in H1, H2, H3. auto.
Qed.

Lemma save_user_distinct (db db' : Store) (u u' : CustomUser) :
  users_distinct db ->
  save_user db u = Ok (u', db') ->
  users_distinct db'.
Proof.
  intros (Hpk & Hk & Hn & He & Hc). unfold save_user.
  destruct (existsb (clashes u) (other_rows db u)) eqn:Hclash;
    [discriminate|].
  pose proof (no_clash u _ Hclash) as Hno. unfold other_rows in Hno.
  destruct (user_pk u) as [k|] eqn:Epk.
  - assert (Hother : forall r, In r (users db) -> has_pk k r = false ->
              username r <> username u
              /\ institutional_email r <> institutional_email u
              /\ access_code r <> access_code u).
    { intros r Hin Hr. apply Hno, filter_In. split; [exact Hin|].
      now rewrite Hr. }
    destruct (existsb (has_pk k) (users db)) eqn:Hex.
    + intros [= <- <-]. unfold users_distinct.
      cbn [set_users users user_seq].
      assert (Hsame : map user_pk
                        (map (fun r => if has_pk k r then u else r) (users db))
                      = map user_pk (users db)).
      { apply map_replace_same. intros r Hr. apply has_pk_iff in Hr.
        congruence. }
      split; [|split; [now rewrite Hsame | split; [|split]]].
      * apply Forall_forall. intros x Hx.
        apply in_map_iff in Hx as (r & <- & Hr).
        rewrite Forall_forall in Hpk.
        destruct (has_pk k r) eqn:E; [|now apply Hpk].
        apply has_pk_iff in E. destruct (Hpk r Hr) as (j & Hj & Hle).
        exists j. split; [congruence | exact Hle].
      * apply (NoDup_replace username user_pk (has_pk k) (Some k));
          try assumption; [apply has_pk_iff|].
        intros r Hin Hr. now apply Hother.
      * apply (NoDup_replace institutional_email user_pk (has_pk k) (Some k));
          try assumption; [apply has_pk_iff|].
        intros r Hin Hr. now apply Hother.
      * apply (NoDup_replace access_code user_pk (has_pk k) (Some k));
          try assumption; [apply has_pk_iff|].
        intros r Hin Hr. now apply Hother.
    + intros [= <- <-]. unfold users_distinct.
      cbn [set_users users user_seq]. rewrite !map_app. cbn [map].
      assert (Hnone : forall r, In r (users db) -> has_pk k r = false).
      { intros r Hin. destruct (has_pk k r) eqn:E; [|reflexivity].
        assert (existsb (has_pk k) (users db) = true)
          by (apply existsb_exists; eauto). congruence. }
      split; [|split; [|split; [|split]]].
      * apply Forall_app. split.
        -- eapply Forall_impl; [|exact Hpk]. cbv beta.
           intros r (j & Hj & Hle). exists j. split; [exact Hj | lia].
        -- constructor; [|constructor]. exists k. split; [exact Epk | lia].
      * apply NoDup_snoc; [exact Hk|]. rewrite Epk. intros Hin.
        apply in_map_iff in Hin as (r & Hr & Hin).
        apply has_pk_iff in Hr. rewrite (Hnone r Hin) in Hr. discriminate.
      * apply NoDup_snoc; [exact Hn|]. intros Hin.
        apply in_map_iff in Hin as (r & Hr & Hin).
        destruct (Hother r Hin (Hnone r Hin)) as (? & ? & ?); congruence.
      * apply NoDup_snoc; [exact He|]. intros Hin.
        apply in_map_iff in Hin as (r & Hr & Hin).
        destruct (Hother r Hin (Hnone r Hin)) as (? & ? & ?); congruence.
      * apply NoDup_snoc; [exact Hc|]. intros Hin.
        apply in_map_iff in Hin as (r & Hr & Hin).
        destruct (Hother r Hin (Hnone r Hin)) as (? & ? & ?); congruence.
  - intros [= <- <-]. unfold users_distinct.
    cbn [set_users users user_seq]. rewrite !map_app. cbn [map with_pk
      user_pk username institutional_email access_code].
    split; [|split; [|split; [|split]]].
    + apply Forall_app. split.
      * eapply Forall_impl; [|exact Hpk]. cbv beta.
        intros r (j & Hj & Hle). exists j. split; [exact Hj | lia].
      * constructor; [|constructor]. exists (user_seq db + 1).
        split; [reflexivity | lia].
    + apply NoDup_snoc; [exact Hk|]. intros Hin.
      apply in_map_iff in Hin as (r & Hr & Hin).
      rewrite Forall_forall in Hpk. destruct (Hpk r Hin) as (j & Hj & Hle).
      rewrite Hj in Hr. injection Hr as Hr. lia.
    + apply NoDup_snoc; [exact Hn|]. intros Hin.
      apply in_map_iff in Hin as (r & Hr & Hin).
      destruct (Hno r Hin) as (? & ? & ?); congruence.
    + apply NoDup_snoc; [exact He|]. intros Hin.
      apply in_map_iff in Hin as (r & Hr & Hin).
      destruct (Hno r Hin) as (? & ? & ?); congruence.
    + apply NoDup_snoc; [exact Hc|]. intros Hin.
      apply in_map_iff in Hin as (r & Hr & Hin).
      destruct (Hno r Hin) as (? & ? & ?); congruence.
Qed.

Lemma NoDup_map_inj {A B : Type} (f : A -> B) (l : list A) (x y : A) :
  NoDup (map f l) -> In x l -> In y l -> f x = f y -> x = y.
Proof.
  induction l as [|a l IH]; intros Hnd Hx Hy E; [contradiction|].
  cbn [map] in Hnd. apply NoDup_cons_iff in Hnd as [Ha Hnd].
  destruct Hx as [-> | Hx], Hy as [-> | Hy]; auto.
  - exfalso. apply Ha. rewrite E. now apply in_map.
  - exfalso. apply Ha. rewrite <- E. now apply in_map.
Qed.

Lemma save_user_keeps_users (db db' : Store) (u u' : CustomUser) (k : Z) :
  save_user db u = Ok (u', db') ->
  user_exists db k -> user_exists db' k.
Proof.
  unfold save_user, user_exists.
  destruct (existsb (clashes u) (other_rows db u)); [discriminate|].
  intros Hs Hk. apply existsb_exists in Hk as (r & Hin & Hr).
  destruct (user_pk u) as [j|] eqn:Epk.
  - destruct (existsb (has_pk j) (users db)).
    + injection Hs as <- <-. cbn [set_users users].
      apply existsb_exists.
      exists (if has_pk j r then u else r). split.
      * apply in_map_iff. now exists r.
      * destruct (has_pk j r) eqn:E; [|exact Hr].
        apply has_pk_iff in E, Hr. apply has_pk_iff. congruence.
    + injection Hs as <- <-. cbn [set_users users].
      rewrite existsb_app. apply orb_true_iff. left.
      apply existsb_exists. eauto.
  - injection Hs as <- <-. cbn [set_users users].
    rewrite existsb_app. apply orb_true_iff. left.
    apply existsb_exists. eauto.
Qed.

Lemma save_user_other_tables (db db' : Store) (u u' : CustomUser) :
  save_user db u = Ok (u', db') ->
  tickets db' = tickets db /\ attachments db' = attachments db
  /\ history db' = history db /\ notifications db' = notifications db.
Proof.
  unfold save_user.
  destruct (existsb (clashes u) (other_rows db u)); [discriminate|].
  destruct (user_pk u) as [j|].
  - destruct (existsb (has_pk j) (users db)); intros [= <- <-];
      repeat split.
  - intros [= <- <-]. repeat split.
Qed.

Lemma save_user_keeps_references (db db' : Store) (u u' : CustomUser) :
  save_user db u = Ok (u', db') ->
  referentially_intact db -> referentially_intact db'.
Proof.
  intros Hs (Ht & Ha & Hh & Hn).
  destruct (save_user_other_tables _ _ _ _ Hs) as (Et & Ea & Eh & En).
  pose proof (fun k => save_user_keeps_users db db' u u' k Hs) as Hu.
  unfold referentially_intact, ticket_exists in *.
  rewrite Et, Ea, Eh, En.
  split; [|split; [exact Ha | split]].
  - eapply Forall_impl; [|exact Ht]. cbv beta. intros t. apply Hu.
  - eapply Forall_impl; [|exact Hh]. cbv beta. intros h [H1 H2].
    split; [exact H1|]. destruct (th_user h); [now apply Hu | exact I].
  - eapply Forall_impl; [|exact Hn]. cbv beta. intros n [H1 H2].
    split; [now apply Hu | exact H2].
Qed.

(** X14: regenerating a code keeps the users table as the database
    constrains it: primary keys, user names, institutional addresses and
    access codes stay pairwise distinct; when the call returns, the new
    code is held by the saved row and by no other user; and every
    foreign key of the store still points to a row. *)
Theorem regenerate_code_keeps_codes_distinct (self : CustomUser)
  (db : Store) (g : SystemRandom) :
  users_distinct db ->
  users_distinct (rg_db (regenerate_code self db g))
  /\ (forall code r,
        rg_result (regenerate_code self db g) = Ok code ->
        In r (users (rg_db (regenerate_code self db g))) ->
        access_code r = code ->
        r = rg_self (regenerate_code self db g))
  /\ (referentially_intact db ->
      referentially_intact (rg_db (regenerate_code self db g))).
Proof.
  intros Hd. unfold regenerate_code.
  destruct (generate_access_code g) as [code g'].
  fold (with_fresh_code self code).
  destruct (save_user db (with_fresh_code self code)) as [[self2 db']|e]
    eqn:Hs; cbn [rg_db rg_result rg_self].
  - pose proof (save_user_distinct _ _ _ _ Hd Hs) as Hd'.
    split; [exact Hd'|]. split; [|now apply (save_user_keeps_references _ _ _ _ Hs)].
    intros code' r [= <-] Hin Hcode.
    destruct Hd' as (_ & _ & _ & _ & Hc).
    apply (NoDup_map_inj access_code (users db')); try assumption.
    destruct (save_user_cases db (with_fresh_code self code))
      as [[_ Hr] | (_ & u' & db'' & Hs' & Hin' & _)]; rewrite Hs in *;
      [discriminate|].
    now injection Hs' as -> ->.
  - split; [exact Hd|]. split; [discriminate | auto].
Qed.

Lemma regenerate_code_keeps_codes_distinct_witness :
  users_distinct (rg_db (regenerate_code ana campus dice))
  /\ (forall code r,
        rg_result (regenerate_code ana campus dice) = Ok code ->
        In r (users (rg_db (regenerate_code ana campus dice))) ->
        access_code r = code ->
        r = rg_self (regenerate_code ana campus dice))
  /\ (referentially_intact campus ->
      referentially_intact (rg_db (regenerate_code ana campus dice))).
Proof.
  apply (regenerate_code_keeps_codes_distinct ana campus dice).
  unfold users_distinct. cbn [campus users user_seq map].
  split; [|split; [|split; [|split]]].
  - repeat constructor.
    + exists 1. split; [reflexivity | lia].
    + exists 2. split; [reflexivity | lia].
  - repeat constructor; cbn; intuition discriminate.
  - repeat constructor; cbn; intuition discriminate.
  - repeat constructor; cbn; intuition discriminate.
  - repeat constructor; cbn; intuition discriminate.
Defined.
